(** * The pagination engine of the document editor

    A shallow embedding of the renderer's [DocumentEditor] class: the
    layout metrics (calculatePageDimensions), the overflow splitter
    (extractOverflowContent), the pagination controller
    (checkPageOverflow, addPage, the Backspace handler), the document
    session fields and the debounce timer.

    Conventions of the embedding.
    - A content region (an [.editor] element) is represented by its
      markup, the string its [innerHTML] property reads; the child nodes
      of a region are the nodes the rendering surface builds for that
      markup.  The surface is not part of the repository: its parser and
      its layout are parameters of the development ([childNodes],
      [scrollHeight], [innerText]).
    - Lengths are CSS pixel counts, taken as integers; a JavaScript
      number is an integer or NaN ([jsnum]).
    - The display-only effects (status line, word count, toast) are not
      part of the state, except as entries of the [console] log. *)

From Stdlib Require Import ZArith Lia Ascii.
From stdpp Require Import gmap strings list relations.

Local Open Scope Z_scope.

(** ** JavaScript numbers *)

Inductive jsnum :=
| Num (z : Z)
| NaN.

Definition js_add (a b : jsnum) : jsnum :=
  match a, b with
  | Num x, Num y => Num (x + y)
  | _, _ => NaN
  end.

Definition js_sub (a b : jsnum) : jsnum :=
  match a, b with
  | Num x, Num y => Num (x - y)
  | _, _ => NaN
  end.

(** [a > b]; any comparison with NaN is false. *)
Definition js_gt (a b : jsnum) : bool :=
  match a, b with
  | Num x, Num y => y <? x
  | _, _ => false
  end.

(** [a <= b] *)
Definition js_le (a b : jsnum) : bool :=
  match a, b with
  | Num x, Num y => x <=? y
  | _, _ => false
  end.

(** ** Strings: the fragments of the String API the code uses *)

(** A string is a sequence of code units below 256.  White space, as
    [String.prototype.trim] and the class [\s] take it, is among these
    the tabulation, the line feed, the vertical tabulation, the form
    feed, the carriage return, the space and the no-break space U+00A0
    (the other white space of Unicode lies above 255). *)
Definition is_space (c : ascii) : bool :=
  Ascii.is_space c || bool_decide (c = "160"%char).

Fixpoint trimStart (s : string) : string :=
  match s with
  | EmptyString => EmptyString
  | String c r => if is_space c then trimStart r else s
  end.

Fixpoint trimEnd (s : string) : string :=
  match s with
  | EmptyString => EmptyString
  | String c r =>
      match trimEnd r with
      | EmptyString => if is_space c then EmptyString else String c EmptyString
      | r' => String c r'
      end
  end.

(** [s.trim()] *)
Definition trim (s : string) : string := trimEnd (trimStart s).

(** [s.trim() === ''] *)
Definition blank (s : string) : bool := bool_decide (trim s = "").

Fixpoint all_space (s : string) : bool :=
  match s with
  | EmptyString => true
  | String c r => is_space c && all_space r
  end.

(** ** Nodes of a content region *)

(** A top-level child of a region is an element (a paragraph, a table,
    an image, a rule, a break), which has an [outerHTML] and a rendered
    [offsetHeight], or a character-data node (a text node), which has
    neither: only its [textContent]. *)
Inductive node :=
| Element (outerHTML : string) (height : Z)
| Text (textContent : string).

(** [node.offsetHeight]; undefined on a text node, and undefined turns
    the sum it enters into NaN. *)
Definition offsetHeight (n : node) : jsnum :=
  match n with
  | Element _ h => Num h
  | Text _ => NaN
  end.

(** [node.outerHTML || node.textContent].  The outerHTML of an element
    is never the empty string, so [||] selects it. *)
Definition outerHTML_or_textContent (n : node) : string :=
  match n with
  | Element html _ => html
  | Text t => t
  end.

(** How the surface writes character data when it serialises a region:
    ampersand, less-than and greater-than become entities. *)
Fixpoint escapeText (s : string) : string :=
  match s with
  | EmptyString => EmptyString
  | String c r =>
      (if decide (c = "&"%char) then "&amp;"
       else if decide (c = "<"%char) then "&lt;"
       else if decide (c = ">"%char) then "&gt;"
       else String c EmptyString) +:+ escapeText r
  end.

Definition serialize (n : node) : string :=
  match n with
  | Element html _ => html
  | Text t => escapeText t
  end.

(** [element.innerHTML] (read) of a region with child nodes [l] *)
Fixpoint innerHTML (l : list node) : string :=
  match l with
  | [] => ""
  | n :: r => serialize n +:+ innerHTML r
  end.

(** The markup collected by the loop
    [overflowHTML += tempNodes[i].outerHTML || tempNodes[i].textContent] *)
Fixpoint collect (l : list node) : string :=
  match l with
  | [] => ""
  | n :: r => outerHTML_or_textContent n +:+ collect r
  end.

(** The placeholder break marker *)
Definition placeholder : string := "<br>".

(** ** The overflow splitter *)

(** The [for] loop of extractOverflowContent from index [i] on, with
    [currentHeight] accumulated so far; [None] is [splitIndex === -1]. *)
Fixpoint find_split (tempNodes : list node) (i : nat)
    (currentHeight maxHeight : jsnum) : option nat :=
  match tempNodes with
  | [] => None
  | node :: rest =>
      let nodeHeight := offsetHeight node in
      if js_gt (js_add currentHeight nodeHeight) maxHeight then Some i
      else find_split rest (S i) (js_add currentHeight nodeHeight) maxHeight
  end.

(** ** The rendering surface *)

(** What the engine asks of the surface it runs on.
    - [childNodes html]: the child nodes of a region holding [html], each
      element with the height it renders at in a region's width and font;
    - [scrollHeight html]: the full content height of such a region;
    - [innerText html]: its rendered text. *)
Class Surface := {
  childNodes : string -> list node;
  scrollHeight : string -> Z;
  innerText : string -> string
}.

(** ** Pages and the document session *)

(** A [.page] element.  [editor] is the markup of its content region,
    [None] when the page has no [.editor] element; [page_number] is the
    number shown in its [.page-number] element, [None] when it has none;
    [wired] tells whether setupPageEvents has run on the page. *)
Record page := Page {
  editor : option string;
  page_number : option nat;
  wired : bool
}.

(** A pending timeout whose callback is [checkPageOverflow(editor)], the
    editor being that of the page at index [target]. *)
Record task := Task {
  target : nat;
  delay : Z
}.

Inductive entry :=
| Log (msg : string)
| Warn (msg : string)
| Error (msg : string)
| Toast (msg : string).

(** The fields of [DocumentEditor], the pages of the document, the
    focused region and the host's pending timeouts.  Regions are named
    by the index of their page. *)
Record state := State {
  pages : list page;
  documentModified : bool;
  currentFilePath : option string;
  currentPage : nat;
  totalPages : nat;
  selectedEditor : option nat;
  typingTimer : option nat;
  pageHeight : jsnum;
  activeElement : option nat;
  timers : gmap nat task;
  next_timer : nat;
  console : list entry
}.

Definition set_pages (f : list page -> list page) (st : state) : state :=
  State (f (pages st)) (documentModified st) (currentFilePath st)
    (currentPage st) (totalPages st) (selectedEditor st) (typingTimer st)
    (pageHeight st) (activeElement st) (timers st) (next_timer st) (console st).

Definition set_documentModified (b : bool) (st : state) : state :=
  State (pages st) b (currentFilePath st)
    (currentPage st) (totalPages st) (selectedEditor st) (typingTimer st)
    (pageHeight st) (activeElement st) (timers st) (next_timer st) (console st).

Definition set_currentFilePath (p : option string) (st : state) : state :=
  State (pages st) (documentModified st) p
    (currentPage st) (totalPages st) (selectedEditor st) (typingTimer st)
    (pageHeight st) (activeElement st) (timers st) (next_timer st) (console st).

Definition set_currentPage (n : nat) (st : state) : state :=
  State (pages st) (documentModified st) (currentFilePath st)
    n (totalPages st) (selectedEditor st) (typingTimer st)
    (pageHeight st) (activeElement st) (timers st) (next_timer st) (console st).

Definition set_totalPages (n : nat) (st : state) : state :=
  State (pages st) (documentModified st) (currentFilePath st)
    (currentPage st) n (selectedEditor st) (typingTimer st)
    (pageHeight st) (activeElement st) (timers st) (next_timer st) (console st).

Definition set_selectedEditor (e : option nat) (st : state) : state :=
  State (pages st) (documentModified st) (currentFilePath st)
    (currentPage st) (totalPages st) e (typingTimer st)
    (pageHeight st) (activeElement st) (timers st) (next_timer st) (console st).

Definition set_typingTimer (t : option nat) (st : state) : state :=
  State (pages st) (documentModified st) (currentFilePath st)
    (currentPage st) (totalPages st) (selectedEditor st) t
    (pageHeight st) (activeElement st) (timers st) (next_timer st) (console st).

Definition set_pageHeight (h : jsnum) (st : state) : state :=
  State (pages st) (documentModified st) (currentFilePath st)
    (currentPage st) (totalPages st) (selectedEditor st) (typingTimer st)
    h (activeElement st) (timers st) (next_timer st) (console st).

Definition set_activeElement (e : option nat) (st : state) : state :=
  State (pages st) (documentModified st) (currentFilePath st)
    (currentPage st) (totalPages st) (selectedEditor st) (typingTimer st)
    (pageHeight st) e (timers st) (next_timer st) (console st).

Definition set_timers (f : gmap nat task -> gmap nat task) (st : state) : state :=
  State (pages st) (documentModified st) (currentFilePath st)
    (currentPage st) (totalPages st) (selectedEditor st) (typingTimer st)
    (pageHeight st) (activeElement st) (f (timers st)) (next_timer st) (console st).

Definition set_next_timer (n : nat) (st : state) : state :=
  State (pages st) (documentModified st) (currentFilePath st)
    (currentPage st) (totalPages st) (selectedEditor st) (typingTimer st)
    (pageHeight st) (activeElement st) (timers st) n (console st).

(** [console.log], [console.warn], [console.error], [showToast] *)
Definition emit (e : entry) (st : state) : state :=
  State (pages st) (documentModified st) (currentFilePath st)
    (currentPage st) (totalPages st) (selectedEditor st) (typingTimer st)
    (pageHeight st) (activeElement st) (timers st) (next_timer st)
    (console st ++ [e]).

(** [page.querySelector('.editor').innerHTML = html] on the page at
    index [i]; nothing happens to a page without a region. *)
Definition set_innerHTML (html : string) (p : page) : page :=
  match editor p with
  | Some _ => Page (Some html) (page_number p) (wired p)
  | None => p
  end.

Definition set_editor (i : nat) (html : string) (st : state) : state :=
  set_pages (fun ps =>
    match ps !! i with
    | Some p => <[i := set_innerHTML html p]> ps
    | None => ps
    end) st.

(** The region of the page at index [i], if there is one *)
Definition editor_at (st : state) (i : nat) : option string :=
  pages st !! i ≫= editor.

(** ** Exceptions *)

Inductive exn :=
| TypeError
| RangeError.

(** A call returns normally or throws, leaving the state it reached. *)
Inductive result :=
| Done (st : state)
| Thrown (e : exn) (st : state).

Definition bind (r : result) (k : state -> result) : result :=
  match r with
  | Done st => k st
  | Thrown e st => Thrown e st
  end.

Notation "'let!' x := r 'in' k" := (bind r (fun x => k))
  (at level 10, x name, r at level 100, k at level 200).

Definition state_of (r : result) : state :=
  match r with
  | Done st => st
  | Thrown _ st => st
  end.

(** ** Session and page bookkeeping *)

(** [markDocumentAsModified()] *)
Definition markDocumentAsModified (st : state) : state :=
  set_documentModified true st.

(** [updatePageNumbers()] *)
Definition renumber (i : nat) (p : page) : page :=
  match page_number p with
  | Some _ => Page (editor p) (Some (i + 1)%nat) (wired p)
  | None => p
  end.

Definition updatePageNumbers (st : state) : state :=
  let st1 := set_pages (imap renumber) st in
  set_totalPages (length (pages st1)) st1.

(** [updateUI()]: the status line and the word count are display only. *)
Definition updateUI (st : state) : state := updatePageNumbers st.

(** [updateCurrentPage(editable)] for the region of page [i] *)
Definition updateCurrentPage (i : nat) (st : state) : state :=
  match pages st !! i with
  | Some _ => set_currentPage (i + 1)%nat st
  | None => st
  end.

(** [el.focus()] on the region of page [i]: the region becomes the active
    element, and the focus listener of setupPageEvents runs if the page
    has been wired. *)
Definition focus (i : nat) (st : state) : state :=
  let st1 := set_activeElement (Some i) st in
  match pages st !! i with
  | Some p =>
      if wired p then updateCurrentPage i (set_selectedEditor (Some i) st1)
      else st1
  | None => st1
  end.

(** The page addPage makes from the first page: a copy
    ([cloneNode(true)]) whose editable content is cleared and on which
    setupPageEvents has run. *)
Definition template (first : page) : page :=
  Page ((fun _ => "") <$> editor first) (page_number first) true.

(** [addPage()] *)
Definition addPage (st : state) : result :=
  match pages st with
  | [] => Thrown TypeError st
  | first :: _ =>
      let pageTemplate := template first in
      let index := length (pages st) in
      let st1 := set_pages (fun ps => ps ++ [pageTemplate]) st in
      let st2 :=
        match editor pageTemplate with
        | Some _ => set_selectedEditor (Some index) (focus index st1)
        | None => st1
        end in
      Done (emit (Toast "New page added") (updateUI st2))
  end.

(** ** Timeouts *)

(** [clearTimeout(this.typingTimer)] *)
Definition clearTimeout (id : option nat) (st : state) : state :=
  match id with
  | Some t => set_timers (delete t) st
  | None => st
  end.

(** [this.typingTimer = setTimeout(() => this.checkPageOverflow(editor), delay)] *)
Definition setTimeout (t : task) (st : state) : state :=
  let id := next_timer st in
  set_typingTimer (Some id)
    (set_next_timer (S id) (set_timers (insert id t) st)).

(** The two statements every site that schedules a check runs *)
Definition schedule (i : nat) (ms : Z) (st : state) : state :=
  setTimeout (Task i ms) (clearTimeout (typingTimer st) st).

(** ** The layout metrics *)

(** The lengths calculatePageDimensions reads from the first page: the
    parsed computed style values and the header and footer heights (0
    when the page has no such element). *)
Record metrics := Metrics {
  m_pageHeight : jsnum;
  m_editorPaddingTop : jsnum;
  m_editorPaddingBottom : jsnum;
  m_editorMarginTop : jsnum;
  m_editorMarginBottom : jsnum;
  m_headerHeight : Z;
  m_footerHeight : Z;
  m_pagePaddingTop : jsnum;
  m_pagePaddingBottom : jsnum
}.

Definition usable_height (m : metrics) : jsnum :=
  js_sub (js_sub (js_sub (js_sub (js_sub (js_sub (js_sub (js_sub
    (m_pageHeight m) (Num (m_headerHeight m))) (Num (m_footerHeight m)))
    (m_pagePaddingTop m)) (m_pagePaddingBottom m))
    (m_editorPaddingTop m)) (m_editorPaddingBottom m))
    (m_editorMarginTop m)) (m_editorMarginBottom m).

Definition fallback_height : Z := 1120.

(** The statements of [calculatePageDimensions()] from the reading of
    the lengths on: [Some m] when the first page is there and the lengths
    [m] were read from it and its region, [None] when the document has
    no page.  The call itself, which throws on a first page without
    region before it reads a length, is [calculatePageDimensions_call]. *)
Definition calculatePageDimensions (m : option metrics) (st : state) : state :=
  match m with
  | None => st
  | Some m =>
      let st1 := set_pageHeight (usable_height m) st in
      let st2 :=
        if js_le (pageHeight st1) (Num 0) then
          emit (Warn "Calculated page height is too small, using fallback.")
            (set_pageHeight (Num fallback_height) st1)
        else st1 in
      emit (Log "Calculated usable page height for editor:") st2
  end.


(** ** The emptiness test of the Backspace handler *)

Definition lower (c : ascii) : ascii :=
  let n := nat_of_ascii c in
  if ((65 <=? n) && (n <=? 90))%nat then ascii_of_nat (n + 32) else c.

(** A match of [<br\s*\/?>] (case-insensitive) at the head of [s]: the
    rest of the string after it. *)
Definition match_br (s : string) : option string :=
  match s with
  | String c1 (String c2 (String c3 r)) =>
      if bool_decide (c1 = "<"%char) && bool_decide (lower c2 = "b"%char)
         && bool_decide (lower c3 = "r"%char) then
        match trimStart r with
        | String c4 r4 =>
            if bool_decide (c4 = ">"%char) then Some r4
            else if bool_decide (c4 = "/"%char) then
              match r4 with
              | String c5 r5 => if bool_decide (c5 = ">"%char) then Some r5 else None
              | EmptyString => None
              end
            else None
        | EmptyString => None
        end
      else None
  | _ => None
  end.

(** A match of [&nbsp;] (case-insensitive) at the head of [s] *)
Definition match_nbsp (s : string) : option string :=
  match s with
  | String c1 (String c2 (String c3 (String c4 (String c5 (String c6 r))))) =>
      if bool_decide (c1 = "&"%char) && bool_decide (lower c2 = "n"%char)
         && bool_decide (lower c3 = "b"%char) && bool_decide (lower c4 = "s"%char)
         && bool_decide (lower c5 = "p"%char) && bool_decide (c6 = ";"%char)
      then Some r else None
  | _ => None
  end.

(** [s.replace(re, '')] for a global pattern whose head matcher is [m];
    [n] bounds the number of steps. *)
Fixpoint remove_all (m : string -> option string) (n : nat) (s : string) : string :=
  match n with
  | O => s
  | S n =>
      match m s with
      | Some r => remove_all m n r
      | None =>
          match s with
          | EmptyString => EmptyString
          | String c r => String c (remove_all m n r)
          end
      end
  end.

(** [innerHTML.trim().replace(/<br\s*\/?>/gi, '').replace(/&nbsp;/gi, '').trim()] *)
Definition htmlContent (html : string) : string :=
  let s1 := trim html in
  let s2 := remove_all match_br (S (String.length s1)) s1 in
  let s3 := remove_all match_nbsp (S (String.length s2)) s2 in
  trim s3.

Definition detected : entry := Log "Overflow detected in editor:".

Definition retrying : entry :=
  Log "Editor scrollHeight is 0 but has content. Retrying overflow check.".

Section Engine.

Context `{Surface}.

(** [extractOverflowContent(editor, maxHeight)]: the region's markup
    after the call, and the returned overflow markup.  The nodes are
    measured on an off-screen copy of the region ([tempDiv.innerHTML =
    editor.innerHTML]); the nodes from [splitIndex] on are collected
    from the copy and removed from the region. *)
Definition extractOverflowContent (html : string) (maxHeight : jsnum)
    : string * string :=
  let tempNodes := childNodes html in
  match find_split tempNodes 0 (Num 0) maxHeight with
  | None => (html, "")
  | Some splitIndex =>
      let overflowHTML := collect (drop splitIndex tempNodes) in
      let retained := innerHTML (take splitIndex (childNodes html)) in
      (if blank retained then placeholder else retained, overflowHTML)
  end.

(** The two places of checkPageOverflow that call addPage: the overflow
    becomes the content of the region of the last page, which is then
    checked by [check]. *)
Definition overflow_to_new_page (check : nat -> state -> result)
    (overflowContent : string) (st : state) : result :=
  let! st1 := addPage st in
  let last := (length (pages st1) - 1)%nat in
  match editor_at st1 last with
  | Some _ => check last (set_editor last overflowContent st1)
  | None => Done st1
  end.

(** [checkPageOverflow(editor)] for the region of the page at index
    [i]; [depth] is the number of nested calls of checkPageOverflow the
    stack has room for.  [Thrown RangeError st] tells that the stack was
    exhausted, and [st] is the state at the entry of the call that found
    no room; the stack may as well run out inside that call of addPage,
    updateUI or extractOverflowContent, so [st] describes the document
    up to the last nested call that was entered and no further. *)
Fixpoint checkPageOverflow (depth : nat) (i : nat) (st : state) : result :=
  match depth with
  | O => Thrown RangeError st
  | S depth =>
      match editor_at st i with
      | None => Done st
      | Some html =>
          if bool_decide (scrollHeight html = 0) && negb (blank (innerText html))
          then
            Done (schedule i 100 (emit retrying st))
          else
            let! st' :=
              (if js_gt (Num (scrollHeight html)) (js_add (pageHeight st) (Num 5))
               then
                 let st0 := emit detected st in
                 let currentIndex := i in
                 let n := length (pages st0) in
                 let '(retained, overflowContent) :=
                   extractOverflowContent html (pageHeight st0) in
                 let st1 := set_editor i retained st0 in
                 if negb (blank overflowContent) then
                   if bool_decide (S currentIndex = n) then
                     overflow_to_new_page (checkPageOverflow depth) overflowContent st1
                   else
                     match editor_at st1 (currentIndex + 1) with
                     | Some next =>
                         checkPageOverflow depth (currentIndex + 1)
                           (set_editor (currentIndex + 1) (overflowContent +:+ next) st1)
                     | None =>
                         overflow_to_new_page (checkPageOverflow depth) overflowContent st1
                     end
                 else Done st1
               else Done st) in
            Done (updateUI st')
      end
  end.

(** [checkAllPagesForOverflow()]: the regions present when the call
    starts, in page order. *)
Definition checkAllPagesForOverflow (depth : nat) (st : state) : result :=
  foldl (fun r i => let! st' := r in checkPageOverflow depth i st') (Done st)
    (seq 0 (length (pages st))).

(** The callback of a timeout runs when the timeout [id] elapses, if it
    has not been cleared.  The closure holds the region it was made for;
    a task names it by the index of its page, which is that region for
    as long as no page is removed in between. *)
Definition timeout_elapses (depth : nat) (id : nat) (st : state) : result :=
  match timers st !! id with
  | Some t => checkPageOverflow depth (target t) (set_timers (delete id) st)
  | None => Done st
  end.

(** ** The controller as a transition system

    The changes of state one call of checkPageOverflow is made of. *)

(** The region of page [i] overflows, and the splitter leaves
    [retained] in it and returns [overflow]. *)
Definition splits (st : state) (i : nat) (retained overflow : string) : Prop :=
  exists html,
    editor_at st i = Some html /\
    js_gt (Num (scrollHeight html)) (js_add (pageHeight st) (Num 5)) = true /\
    extractOverflowContent html (pageHeight st) = (retained, overflow).

Inductive step : state -> state -> Prop :=
| step_retry i html st :
    editor_at st i = Some html ->
    scrollHeight html = 0 -> blank (innerText html) = false ->
    step st (schedule i 100 (emit retrying st))
| step_refresh st :
    step st (updateUI st)
| step_no_overflow i retained overflow st :
    splits st i retained overflow ->
    blank overflow = true ->
    step st (set_editor i retained (emit detected st))
| step_next_page i retained overflow next st :
    splits st i retained overflow ->
    blank overflow = false ->
    editor_at st (i + 1) = Some next ->
    step st (set_editor (i + 1) (overflow +:+ next)
               (set_editor i retained (emit detected st)))
| step_new_page i retained overflow st st2 :
    splits st i retained overflow ->
    blank overflow = false ->
    editor_at st (i + 1) = None ->
    addPage (set_editor i retained (emit detected st)) = Done st2 ->
    step st (set_editor (length (pages st)) overflow st2)
| step_no_region i retained overflow st st2 :
    splits st i retained overflow ->
    blank overflow = false ->
    editor_at st (i + 1) = None ->
    addPage (set_editor i retained (emit detected st)) = Done st2 ->
    editor_at st2 (length (pages st)) = None ->
    step st st2.

End Engine.

(** [handleEditorInput(editor)] for the region of page [i] *)
Definition handleEditorInput (i : nat) (st : state) : state :=
  schedule i 500 (markDocumentAsModified st).

(** The callback of the mutation observer of setupAutoPageBreak, for one
    mutation whose target is the region of page [i] *)
Definition onMutation (i : nat) (st : state) : state :=
  schedule i 500 st.

(** The keydown listener of setupEditorEvents.  [activeElement st] is
    [Some a] when the active element is the region of page [a]. *)
Definition onKeydown (key : string) (st : state) : state :=
  match activeElement st with
  | Some a =>
      match editor_at st a with
      | Some html =>
          if bool_decide (key = "Backspace") && bool_decide (htmlContent html = "")
          then
            let currentIndex := a in
            if bool_decide (0 < currentIndex)%nat then
              let before := pages st in
              let st1 := set_activeElement None (set_pages (delete currentIndex) st) in
              let st2 :=
                match before !! (currentIndex - 1)%nat ≫= editor with
                | Some _ =>
                    set_selectedEditor (Some (currentIndex - 1)%nat)
                      (focus (currentIndex - 1) st1)
                | None => st1
                end in
              let st3 := updatePageNumbers st2 in
              let st4 := set_totalPages (length (pages st3)) st3 in
              let st5 := set_currentPage (currentPage st4 `min` totalPages st4) st4 in
              emit (Toast "Empty page removed") st5
            else st
          else st
      | None => st
      end
  | None => st
  end.

(** ** The caret

    A caret is a place in a region: the index of the page and an offset
    among the child nodes of its region, 0 at the start and their number
    at the end.  The keydown listener makes no Selection and no Range:
    after [prevEditor.focus()] the caret is where the host leaves it when
    a region takes the focus, [caret_on_focus html] for a region holding
    [html]. *)
Class Host := {
  caret_on_focus : string -> nat
}.

(** The caret after the keydown listener of setupEditorEvents ran from
    the state [st] with the caret at [caret] ([None] when the document
    has no caret). *)
Definition caret_after_keydown `{Host} (key : string) (st : state)
    (caret : option (nat * nat)) : option (nat * nat) :=
  match activeElement st with
  | Some a =>
      match editor_at st a with
      | Some html =>
          if bool_decide (key = "Backspace") && bool_decide (htmlContent html = "")
          then
            let currentIndex := a in
            if bool_decide (0 < currentIndex)%nat then
              match pages st !! (currentIndex - 1)%nat ≫= editor with
              | Some prev => Some ((currentIndex - 1)%nat, caret_on_focus prev)
              | None => None
              end
            else caret
          else caret
      | None => caret
      end
  | None => caret
  end.

(** [focusFirstEditor()] *)
Definition focusFirstEditor (st : state) : state :=
  match list_find (fun p => is_Some (editor p)) (pages st) with
  | Some (i, _) => set_selectedEditor (Some i) (focus i st)
  | None => st
  end.

(** [resetDocument()] *)
Definition resetDocument (st : state) : state :=
  match pages st with
  | [] => emit (Error "No page found to reset") st
  | firstPage :: _ =>
      let st0 :=
        set_activeElement
          (match activeElement st with Some O => Some O | _ => None end) st in
      let st1 := set_pages (fun _ => [set_innerHTML "" firstPage]) st0 in
      let st2 :=
        set_documentModified false
          (set_currentFilePath None
            (set_totalPages 1 (set_currentPage 1 st1))) in
      emit (Toast "New document created") (updateUI (focusFirstEditor st2))
  end.

(** ** Blocks

    The content block model: a block is an element, which has markup
    that is not blank and a rendered height. *)
Definition is_block (n : node) : bool :=
  match n with
  | Element html _ => negb (blank html)
  | Text _ => false
  end.

Definition block_height (n : node) : Z :=
  match n with
  | Element _ h => h
  | Text _ => 0
  end.

(** The running total of the heights of the blocks [l] *)
Definition total_height (l : list node) : Z :=
  foldr (fun n acc => block_height n + acc) 0 l.

(** ** The events of a session *)

Inductive event :=
| Typed (i : nat) (html : string)
| Mutation (i : nat)
| Elapse (id : nat)
| Resize (m : option metrics)
| Keydown (key : string)
| AddPageClick
| NewDocument.

Section Session.

Context `{Surface}.

(** [handleResize()] *)
Definition handleResize (depth : nat) (m : option metrics) (st : state) : result :=
  checkAllPagesForOverflow depth (calculatePageDimensions m st).

(** What the editor does on an event; an exception a handler throws
    ends the handler and leaves the state it reached.  [Typed i html]
    is an edit that leaves [html] in the region of page [i], with the
    input event that follows it. *)
Definition handle (depth : nat) (st : state) (e : event) : state :=
  match e with
  | Typed i html => handleEditorInput i (set_editor i html st)
  | Mutation i => onMutation i st
  | Elapse id => state_of (timeout_elapses depth id st)
  | Resize m => state_of (handleResize depth m st)
  | Keydown key => onKeydown key st
  | AddPageClick => state_of (addPage st)
  | NewDocument => resetDocument st
  end.

Definition run (depth : nat) (trace : list event) (st : state) : state :=
  foldl (handle depth) st trace.

End Session.

(** ** Invariants and observations *)

(** The pages that show a number show their position, counted from 1. *)
Definition numbered (ps : list page) : Prop :=
  forall j p n, ps !! j = Some p -> page_number p = Some n -> n = S j.

(** No region is empty without a placeholder: the markup of every region
    has something else than white space in it. *)
Definition regions_focusable (st : state) : Prop :=
  forall i html, editor_at st i = Some html -> blank html = false.

(** The regions of the document in page order; [None] stands for a page
    without a region. *)
Definition regions (st : state) : list (option string) := editor <$> pages st.


(** Every pending timeout is the one [typingTimer] names. *)
Definition one_pending (st : state) : Prop :=
  forall id t, timers st !! id = Some t -> typingTimer st = Some id.

(** Every page has a content region. *)
Definition every_page_has_region (st : state) : Prop :=
  forall p, p ∈ pages st -> is_Some (editor p).

Definition is_placeholder (n : node) : bool :=
  match n with
  | Element html _ => bool_decide (html = placeholder)
  | Text _ => false
  end.

Definition kept (n : node) : bool := negb (is_placeholder n).

(** [padded l l']: the list [l'] is [l] with placeholder breaks put in,
    and nothing else changed. *)
Inductive padded : list node -> list node -> Prop :=
| padded_nil : padded [] []
| padded_keep n l l' : padded l l' -> padded (n :: l) (n :: l')
| padded_insert h l l' : padded l l' -> padded l (Element placeholder h :: l').

Section Content.

Context `{Surface}.

Definition region_nodes (r : option string) : list node :=
  match r with
  | Some html => childNodes html
  | None => []
  end.

(** The nodes of the regions [R], in order *)
Definition nodes_of (R : list (option string)) : list node :=
  concat (region_nodes <$> R).

(** The content of the document: the nodes of all regions in page order *)
Definition document_nodes (st : state) : list node := nodes_of (regions st).


(** The surface renders the nodes in [faithful] faithfully: they are
    blocks, the placeholder break is one of them, and a region whose
    markup is the serialisation of such nodes has exactly these nodes
    as children. *)
Class Faithful (faithful : node -> Prop) : Prop := {
  round_trip : forall l, Forall faithful l -> childNodes (innerHTML l) = l;
  faithful_block : forall n, faithful n -> is_block n = true;
  faithful_placeholder : exists h, faithful (Element placeholder h)
}.

End Content.

(** Markup that is the serialisation of nodes in [faithful] *)
Definition rendered (faithful : node -> Prop) (html : string) : Prop :=
  exists l, Forall faithful l /\ html = innerHTML l.

Definition region_ok (faithful : node -> Prop) (r : option string) : Prop :=
  exists html, r = Some html /\ rendered faithful html.

(** A document whose pages all have a region, holding rendered markup *)
Definition well_formed (faithful : node -> Prop) (st : state) : Prop :=
  every_page_has_region st /\
  forall i html, editor_at st i = Some html -> rendered faithful html.

(** ** A surface to run the engine on

    Markup made of paragraphs [<p>text</p>] and breaks [<br>], laid out
    one character per line: a paragraph is as high as 100 times the
    length of its text, a break is 20 high, and the content height of a
    region is the sum of the heights of its elements. *)
Module Flat.

Inductive phase :=
| Outside
| OpenTag
| Content (lines : nat)
| CloseTag (lines : nat).

Definition flush (acc : string) : list node :=
  if bool_decide (acc = "") then [] else [Text acc].

Fixpoint scan (s : string) (acc : string) (ph : phase) : list node :=
  match s with
  | EmptyString => flush acc
  | String c r =>
      let acc' := acc +:+ String c EmptyString in
      match ph with
      | Outside =>
          if bool_decide (c = "<"%char) then flush acc ++ scan r "<" OpenTag
          else scan r acc' Outside
      | OpenTag =>
          if bool_decide (c = ">"%char) then
            if bool_decide (acc' = "<br>") then Element acc' 20 :: scan r "" Outside
            else scan r acc' (Content 0)
          else scan r acc' OpenTag
      | Content n =>
          if bool_decide (c = "<"%char) then scan r acc' (CloseTag n)
          else scan r acc' (Content (S n))
      | CloseTag n =>
          if bool_decide (c = ">"%char) then
            Element acc' (100 * Z.of_nat n) :: scan r "" Outside
          else scan r acc' (CloseTag n)
      end
  end.

Definition parse (html : string) : list node := scan html "" Outside.

Definition content_height (html : string) : Z := total_height (parse html).

Definition surface : Surface :=
  {| childNodes := parse; scrollHeight := content_height; innerText := id |}.


Definition p3 : node := Element "<p>abc</p>" 300.
Definition p4 : node := Element "<p>abcd</p>" 400.
Definition p5 : node := Element "<p>abcde</p>" 500.
Definition br : node := Element "<br>" 20.

(** The nodes the flat surface is exercised with *)
Definition known (n : node) : Prop := n ∈ [p3; p4; p5; br].

(** A one-page document holding [html], as the editor is after it has
    started: page height 1000, nothing pending. *)
Definition document (ps : list page) : state :=
  State ps false None 1 (length ps) (Some O) None (Num 1000) (Some O) ∅ 0 [].

Definition one_page (html : string) : state :=
  document [Page (Some html) (Some 1%nat) true].

(** One region with three paragraphs of heights 300, 400 and 500 *)
Definition three : state := one_page "<p>abc</p><p>abcd</p><p>abcde</p>".

(** Two pages, the second one holding a break only, with the caret in
    the second region *)
Definition second_page_empty : state :=
  set_activeElement (Some 1%nat)
    (document [Page (Some "<p>abc</p>") (Some 1%nat) true;
               Page (Some "<br>") (Some 2%nat) true]).

(** A host that puts the caret at the start of the region that takes
    the focus *)
Definition caret_at_start : Host := {| caret_on_focus := fun _ => O |}.




End Flat.


(** ** The main process: the list of recent files (main.js) *)
Module Main.

Definition MAX_RECENT_FILES : nat := 5.

(** The module variables of main.js *)
Record state := State {
  recentFiles : list string;
  currentFilePath : option string;
  documentIsModified : bool
}.

Definition initial : state := State [] None false.

(** [array.indexOf(x)]; [None] is -1. *)
Fixpoint indexOf (x : string) (l : list string) : option nat :=
  match l with
  | [] => None
  | y :: r => if decide (y = x) then Some O else S <$> indexOf x r
  end.

(** [array.pop()] *)
Definition pop (l : list string) : list string := take (length l - 1) l.

(** [addToRecentFiles(filePath)], on the list *)
Definition addToRecentFiles (filePath : string) (recent : list string) : list string :=
  let removed :=
    match indexOf filePath recent with
    | Some index => delete index recent
    | None => recent
    end in
  let added := filePath :: removed in
  if decide (MAX_RECENT_FILES < length added)%nat then pop added else added.

(** [clearRecentFiles()] *)
Definition clearRecentFiles (m : state) : state :=
  State [] (currentFilePath m) (documentIsModified m).

(** [openSpecificFile(filePath)]; [on_disk] is what [fs.existsSync] answers
    and [read] what [fs.readFileSync] returns, [None] when it throws. *)
Definition openSpecificFile (filePath : string) (on_disk : bool)
    (read : option string) (m : state) : state :=
  if negb on_disk then
    match indexOf filePath (recentFiles m) with
    | Some index => State (delete index (recentFiles m)) (currentFilePath m)
                      (documentIsModified m)
    | None => m
    end
  else
    match read with
    | Some _ => State (addToRecentFiles filePath (recentFiles m)) (Some filePath) false
    | None => m
    end.

(** The handler of ['open-file']: [chosen] is the first path picked in the
    dialog, [None] when the dialog was cancelled or gave no path. *)
Definition openFile (chosen : option string) (read : option string) (m : state) : state :=
  match chosen, read with
  | Some filePath, Some _ =>
      State (addToRecentFiles filePath (recentFiles m)) (Some filePath) false
  | _, _ => m
  end.

(** The handler of ['save-file']; [written] tells whether
    [fs.writeFileSync] returned. *)
Definition saveFile (filePath : string) (written : bool) (m : state) : state :=
  if written then State (addToRecentFiles filePath (recentFiles m)) (Some filePath) false
  else m.

(** The listener of ['document-modified'] *)
Definition documentModified (modified : bool) (m : state) : state :=
  State (recentFiles m) (currentFilePath m) modified.

Inductive event :=
| OpenRecent (filePath : string) (on_disk : bool) (read : option string)
| OpenFile (chosen : option string) (read : option string)
| SaveFile (filePath : string) (written : bool)
| ClearRecent
| DocumentModified (modified : bool).

Definition handle (m : state) (e : event) : state :=
  match e with
  | OpenRecent filePath on_disk read => openSpecificFile filePath on_disk read m
  | OpenFile chosen read => openFile chosen read m
  | SaveFile filePath written => saveFile filePath written m
  | ClearRecent => clearRecentFiles m
  | DocumentModified modified => documentModified modified m
  end.

Definition run (trace : list event) (m : state) : state := foldl handle m trace.

End Main.

(** What the recent files menu relies on *)
Definition recent_ok (m : Main.state) : Prop :=
  NoDup (Main.recentFiles m) /\
  (length (Main.recentFiles m) <= Main.MAX_RECENT_FILES)%nat.

(** ** Measured nodes *)

(** A node that has an [offsetHeight]: an element. *)
Definition is_element (n : node) : bool :=
  match n with
  | Element _ _ => true
  | Text _ => false
  end.

(** A node whose height the loop of the splitter can add up: an element
    with a height that is not negative. *)
Definition measured (n : node) : Prop := is_element n = true /\ 0 <= block_height n.

(** ** File names *)

Definition is_separator (c : ascii) : bool :=
  bool_decide (c = "/"%char) || bool_decide (c = "\"%char).

(** [s.split(re)] for a pattern [re] that matches one character of the
    class [sep]; [cur] is the piece being read. *)
Fixpoint split_chars (sep : ascii -> bool) (s cur : string) : list string :=
  match s with
  | EmptyString => [cur]
  | String c r =>
      if sep c then cur :: split_chars sep r ""
      else split_chars sep r (cur +:+ String c "")
  end.

(** [filePath.split(/[/\\]/).pop()] *)
Definition file_name (filePath : string) : string :=
  default "" (last (split_chars is_separator filePath "")).

(** Whether a separator occurs in [s] *)
Fixpoint has_separator (s : string) : bool :=
  match s with
  | EmptyString => false
  | String c r => is_separator c || has_separator r
  end.

(** ** Document operations *)


(** The string an attribute of type DOMString receives from a value;
    [None] is [undefined]. *)
Definition DOMString (v : option string) : string := default "undefined" v.

(** A path that is truthy: a string that is not empty *)
Definition truthy (v : option string) : bool :=
  match v with
  | Some s => negb (bool_decide (s = ""))
  | None => false
  end.

(** What [ipcRenderer.invoke] resolves to for a request that is answered
    with a [success] flag, or that it is rejected *)
Inductive ipc_reply :=
| Succeeded
| Failed
| Rejected.

(** What the invocation of ['open-file'] resolves to: the handler of the
    main process returns [{ filePath, content }] or [{ canceled: true }],
    or throws. *)
Inductive open_reply :=
| Opened (filePath content : string)
| Cancelled
| OpenRejected.

(** The reply the handler of the main process gives: [chosen] is the path
    picked in the dialog, [read] the content read from it. *)
Definition open_reply_of (chosen : option string) (read : option string) : open_reply :=
  match chosen, read with
  | Some filePath, Some content => Opened filePath content
  | Some _, None => OpenRejected
  | None, _ => Cancelled
  end.

(** [createNewDocument()]; [confirmed] is the answer to the prompt, which
    is shown when the document is modified. *)
Definition createNewDocument (confirmed : bool) (st : state) : state :=
  if documentModified st && negb confirmed then st else resetDocument st.

(** [saveDocumentToFile(filePath)], the reply taken as it arrives *)
Definition saveDocumentToFile (filePath : string) (reply : ipc_reply) (st : state) : state :=
  match reply with
  | Succeeded =>
      emit (Toast ("Document saved: " +:+ file_name filePath))
        (set_documentModified false (set_currentFilePath (Some filePath) st))
  | Failed => emit (Toast "Error saving document") st
  | Rejected =>
      emit (Toast "Error saving document") (emit (Error "Error saving document:") st)
  end.

(** [saveFileAs()]; [dialog] is what ['save-file-as'] resolves to: [None]
    when the invocation is rejected, otherwise the [filePath] of the
    result, if it has one. *)
Definition saveFileAs (dialog : option (option string)) (reply : ipc_reply)
    (st : state) : state :=
  match dialog with
  | None => emit (Toast "Error saving file") (emit (Error "Error in save as:") st)
  | Some chosen =>
      match chosen with
      | Some filePath =>
          if truthy chosen then saveDocumentToFile filePath reply st else st
      | None => st
      end
  end.

(** [saveFile()] *)
Definition saveFile (dialog : option (option string)) (reply : ipc_reply)
    (st : state) : state :=
  match currentFilePath st with
  | Some filePath =>
      if truthy (currentFilePath st) then saveDocumentToFile filePath reply st
      else saveFileAs dialog reply st
  | None => saveFileAs dialog reply st
  end.

(** [exportPDF()] *)
Definition exportPDF (reply : ipc_reply) (st : state) : state :=
  if negb (truthy (currentFilePath st)) then
    emit (Toast "Please save your document first") st
  else if documentModified st then
    emit (Toast "Please save your changes before exporting to PDF") st
  else
    match reply with
    | Succeeded => emit (Toast "PDF exported successfully") st
    | Failed => emit (Toast "Error exporting PDF") st
    | Rejected => emit (Toast "Error exporting PDF") (emit (Error "Error exporting PDF:") st)
    end.

(** [destroy()] *)
Definition destroy (st : state) : state :=
  emit (Log "Document Editor destroyed") (clearTimeout (typingTimer st) st).

Section Documents.

Context `{Surface}.


(** [loadDocument(filePath, content)]; a path that is [null] or
    [undefined] and a content that is [undefined] are [None].  The last
    statement reads [filePath.split]. *)
Definition loadDocument (depth : nat) (filePath content : option string)
    (st : state) : result :=
  let st1 := resetDocument st in
  let st2 :=
    match list_find (fun p => is_Some (editor p)) (pages st1) with
    | Some (i, _) => set_editor i (DOMString content) st1
    | None => st1
    end in
  let st3 := set_documentModified false (set_currentFilePath filePath st2) in
  let st4 := updateUI st3 in
  let! st5 := checkAllPagesForOverflow depth st4 in
  match filePath with
  | Some path => Done (emit (Toast ("Document loaded: " +:+ file_name path)) st5)
  | None => Thrown TypeError st5
  end.

(** [openFile()], the reply taken as it arrives; what [loadDocument]
    throws is caught. *)
Definition openFile (depth : nat) (confirmed : bool) (reply : open_reply)
    (st : state) : state :=
  if documentModified st && negb confirmed then st
  else
    let failed st' := emit (Toast "Error opening file") (emit (Error "Error opening file:") st') in
    let loaded r :=
      match r with
      | Done st' => st'
      | Thrown _ st' => failed st'
      end in
    match reply with
    | Opened filePath content => loaded (loadDocument depth (Some filePath) (Some content) st)
    | Cancelled => loaded (loadDocument depth None None st)
    | OpenRejected => failed st
    end.

(** [loadFromData(data)] for [data.filePath] and [data.content] *)
Definition loadFromData (depth : nat) (filePath content : option string)
    (st : state) : result :=
  if truthy content then
    loadDocument depth (if truthy filePath then filePath else None) content st
  else Done st.

(** [changeZoom(zoomLevel)]; [container] tells whether the page container
    is there, [m] is what calculatePageDimensions reads once the zoom is
    applied. *)
Definition changeZoom (depth : nat) (container : bool) (m : option metrics)
    (st : state) : result :=
  if container then checkAllPagesForOverflow depth (calculatePageDimensions m st)
  else Done st.

(** What the user and the host can do to the editor *)
Inductive action :=
| Ev (e : event)
| CreateNew (confirmed : bool)
| OpenFile (confirmed : bool) (reply : open_reply)
| SaveFile (dialog : option (option string)) (reply : ipc_reply)
| SaveFileAs (dialog : option (option string)) (reply : ipc_reply)
| ExportPDF (reply : ipc_reply)
| LoadFromData (filePath content : option string)
| Zoom (container : bool) (m : option metrics)
| Destroy.

(** An exception that reaches the host ends the handler and leaves the
    state it reached. *)
Definition perform (depth : nat) (st : state) (a : action) : state :=
  match a with
  | Ev e => handle depth st e
  | CreateNew confirmed => createNewDocument confirmed st
  | OpenFile confirmed reply => openFile depth confirmed reply st
  | SaveFile dialog reply => saveFile dialog reply st
  | SaveFileAs dialog reply => saveFileAs dialog reply st
  | ExportPDF reply => exportPDF reply st
  | LoadFromData filePath content => state_of (loadFromData depth filePath content st)
  | Zoom container m => state_of (changeZoom depth container m st)
  | Destroy => destroy st
  end.

Definition perform_all (depth : nat) (actions : list action) (st : state) : state :=
  foldl (perform depth) st actions.




End Documents.

(** The actions that clear [documentModified] *)
Definition clears (a : action) : bool :=
  match a with
  | Ev NewDocument => true
  | CreateNew _ => true
  | OpenFile _ _ => true
  | SaveFile _ Succeeded => true
  | SaveFileAs _ Succeeded => true
  | LoadFromData _ _ => true
  | _ => false
  end.

(** The structure the handlers rely on: there is a first page, every
    page has a region and has its listeners, the page numbers and
    [totalPages] are up to date and [currentPage] names a page. *)
Definition consistent (st : state) : Prop :=
  pages st <> [] /\
  Forall (fun p => is_Some (editor p) /\ wired p = true) (pages st) /\
  numbered (pages st) /\
  totalPages st = length (pages st) /\
  (1 <= currentPage st <= totalPages st)%nat.

(** ** Counting words *)

(** [s.split(/\s+/)]: the pieces between the runs of white space; [cur]
    is the piece being read, [in_run] tells whether the character read
    last was white space. *)
Fixpoint split_spaces (s cur : string) (in_run : bool) : list string :=
  match s with
  | EmptyString => [cur]
  | String c r =>
      if is_space c then
        if in_run then split_spaces r cur true else cur :: split_spaces r "" true
      else split_spaces r (cur +:+ String c "") false
  end.

(** The number updateWordCount shows for the text [allText]:
    [allText.trim() ? allText.trim().split(/\s+/).length : 0] *)
Definition words (allText : string) : nat :=
  if bool_decide (trim allText = "") then O
  else length (split_spaces (trim allText) "" false).

(** The [wordCount] of getDocumentData:
    [this.getAllText().trim().split(/\s+/).length] *)
Definition wordCount (allText : string) : nat :=
  length (split_spaces (trim allText) "" false).

(** The number of words of a text, counted at their first characters: a
    character that is not white space and that starts the text or
    follows white space. *)
Fixpoint count_words (after_space : bool) (s : string) : nat :=
  match s with
  | EmptyString => O
  | String c r =>
      if is_space c then count_words true r
      else ((if after_space then 1 else 0) + count_words false r)%nat
  end.

(** Whether the text [s], read after a character that is white space or
    not according to [after_space], ends in white space *)
Fixpoint ends_in_space (after_space : bool) (s : string) : bool :=
  match s with
  | EmptyString => after_space
  | String c r => ends_in_space (is_space c) r
  end.

(** ** Search patterns *)

(** The characters of the class [[.*+?^${}()|[\]\\]] *)
Definition special (c : ascii) : bool :=
  bool_decide (c ∈ ["."; "*"; "+"; "?"; "^"; "$"; "{"; "}"; "("; ")"; "|"; "["; "]"; "\"]%char).

(** [escapeRegExp(string)]: [string.replace(/[.*+?^${}()|[\]\\]/g, '\\$&')] *)
Fixpoint escapeRegExp (s : string) : string :=
  match s with
  | EmptyString => EmptyString
  | String c r =>
      if special c then String "\" (String c (escapeRegExp r))
      else String c (escapeRegExp r)
  end.

(** Reading a pattern with the backslashes taken as escapes: the
    character after a backslash is taken as it is. *)
Fixpoint unescape (s : string) : string :=
  match s with
  | EmptyString => EmptyString
  | String c r =>
      if bool_decide (c = "\"%char) then
        match r with
        | String c' r' => String c' (unescape r')
        | EmptyString => String c EmptyString
        end
      else String c (unescape r)
  end.

(** ** The status line *)

Record status := Status { name : string; page_shown : nat; total_shown : nat }.

(** The name updateStatusBar shows *)
Definition docName (st : state) : string :=
  let docName :=
    match currentFilePath st with
    | Some path => if truthy (currentFilePath st) then file_name path else "Untitled Document"
    | None => "Untitled Document"
    end in
  if documentModified st then docName +:+ " *" else docName.

(** What [updateStatusBar()] writes in the status line: the name, and
    [Page ${this.currentPage} of ${this.totalPages}] *)
Definition updateStatusBar (st : state) : status :=
  Status (docName st) (currentPage st) (totalPages st).

(** The status line when [addPage()] returns: updateUI writes it last,
    before it calls updatePageNumbers. *)
Definition addPage_status (st : state) : option status :=
  match pages st with
  | [] => None
  | first :: _ =>
      let pageTemplate := template first in
      let index := length (pages st) in
      let st1 := set_pages (fun ps => ps ++ [pageTemplate]) st in
      let st2 :=
        match editor pageTemplate with
        | Some _ => set_selectedEditor (Some index) (focus index st1)
        | None => st1
        end in
      Some (updateStatusBar st2)
  end.

(** ** Pages that fit *)

(** The region [r] is not found overflowing by checkPageOverflow on
    pages of height [capacity]. *)
Definition fits `{Surface} (capacity : Z) (r : option string) : Prop :=
  forall html, r = Some html -> scrollHeight html <= capacity + 5.

(** ** Markup that shows nothing *)

(** Markup made of breaks (as [<br\s*\/?>] matches them), of
    non-breaking space entities and of white space *)
Inductive filler : string -> Prop :=
| filler_nil : filler ""
| filler_space c s : is_space c = true -> filler s -> filler (String c s)
| filler_br s' s : match_br s' = Some s -> filler s -> filler s'
| filler_nbsp s' s : match_nbsp s' = Some s -> filler s -> filler s'.

(** The same without breaks *)
Inductive spaces : string -> Prop :=
| spaces_nil : spaces ""
| spaces_space c s : is_space c = true -> spaces s -> spaces (String c s)
| spaces_nbsp s' s : match_nbsp s' = Some s -> spaces s -> spaces s'.

(** ** Pages the check leaves alone *)

(** What a call of the overflow check on the region of page [i] keeps:
    the pages there are, and the regions before that page. *)
Definition earlier_pages_kept (i : nat) (st st' : state) : Prop :=
  (length (pages st) <= length (pages st'))%nat /\
  forall j, (j < i)%nat -> editor_at st' j = editor_at st j.
(** * Properties *)

#[local] Arguments String.append !_ _ / : simpl nomatch.

(** ** Strings *)

Lemma trimStart_all_space s : all_space s = true -> trimStart s = "".
Proof.
  induction s as [|c r IH]; simpl; [done|].
  destruct (is_space c); simpl; [auto|done].
Qed.

Lemma trimStart_not_all_space s :
  all_space s = false ->
  exists c r, trimStart s = String c r /\ is_space c = false.
Proof.
  induction s as [|c r IH]; simpl; [done|].
  destruct (is_space c) eqn:E; simpl; [auto|].
  intros _. by exists c, r.
Qed.

Lemma trimEnd_keeps_head c r : is_space c = false -> trimEnd (String c r) <> "".
Proof.
  intros E. simpl. destruct (trimEnd r); [by rewrite E|done].
Qed.

Lemma blank_all_space s : blank s = all_space s.
Proof.
  unfold blank, trim. destruct (all_space s) eqn:E.
  - rewrite (trimStart_all_space s E). done.
  - destruct (trimStart_not_all_space s E) as (c & r & -> & Hc).
    apply bool_decide_eq_false. by apply trimEnd_keeps_head.
Qed.

Lemma all_space_app a b : all_space (a +:+ b) = all_space a && all_space b.
Proof.
  induction a as [|c r IH]; simpl; [done|].
  rewrite IH. by destruct (is_space c).
Qed.

Lemma blank_app a b : blank (a +:+ b) = blank a && blank b.
Proof. rewrite !blank_all_space. apply all_space_app. Qed.

Lemma placeholder_not_blank : blank placeholder = false.
Proof. done. Qed.

Lemma app_assoc_s (a b c : string) : (a +:+ b) +:+ c = a +:+ (b +:+ c).
Proof. induction a as [|x r IH]; simpl; [done|]. by f_equal. Qed.

(** ** Serialisation of blocks *)

Lemma innerHTML_app l1 l2 : innerHTML (l1 ++ l2) = innerHTML l1 +:+ innerHTML l2.
Proof.
  induction l1 as [|n r IH]; simpl; [done|].
  by rewrite IH, app_assoc_s.
Qed.

Lemma collect_app l1 l2 : collect (l1 ++ l2) = collect l1 +:+ collect l2.
Proof.
  induction l1 as [|n r IH]; simpl; [done|].
  by rewrite IH, app_assoc_s.
Qed.

Lemma collect_blocks l : Forall (fun n => is_block n = true) l -> collect l = innerHTML l.
Proof.
  induction 1 as [|n r Hn _ IH]; simpl; [done|].
  rewrite IH. by destruct n.
Qed.

Lemma innerHTML_blocks_not_blank n l :
  is_block n = true -> blank (innerHTML (n :: l)) = false.
Proof.
  intros Hn. simpl. rewrite blank_app.
  destruct n as [html h|t]; simpl in *; [|done].
  by destruct (blank html).
Qed.

(** ** The loop of the splitter *)

(** On blocks the loop stops at the first index at which the running
    total exceeds the capacity. *)
(** The markup of nodes put one after the other, with the library's
    concatenation *)
Lemma concat_cons (x : string) (l : list string) :
  String.concat "" (x :: l) = x +:+ String.concat "" l.
Proof.
  destruct l as [|y l]; [|done]. simpl.
  induction x as [|c x IH]; simpl; [done|]. by f_equal.
Qed.

Lemma collect_concat l : collect l = String.concat "" (outerHTML_or_textContent <$> l).
Proof.
  induction l as [|n r IH]; [done|].
  rewrite fmap_cons, concat_cons. simpl. by rewrite IH.
Qed.

Lemma innerHTML_concat l :
  Forall (fun n => is_element n = true) l ->
  innerHTML l = String.concat "" (outerHTML_or_textContent <$> l).
Proof.
  induction 1 as [|n r Hn _ IH]; [done|].
  rewrite fmap_cons, concat_cons. simpl. rewrite IH. by destruct n.
Qed.

Lemma is_block_element n : is_block n = true -> is_element n = true.
Proof. by destruct n. Qed.

Lemma find_split_first_excess l : forall i c0 capacity k,
  (k < length l)%nat ->
  Forall (fun n => is_block n = true) (take (S k) l) ->
  (forall j, (j < k)%nat -> c0 + total_height (take (S j) l) <= capacity) ->
  capacity < c0 + total_height (take (S k) l) ->
  find_split l i (Num c0) (Num capacity) = Some (i + k)%nat.
Proof.
  induction l as [|n r IH]; intros i c0 capacity k Hk Hall Hbefore Hat.
  - simpl in Hk. lia.
  - change (take (S k) (n :: r)) with (n :: take k r) in Hall, Hat.
    inversion Hall as [|? ? Hn Hr]; subst.
    destruct n as [html h|t]; [|done].
    unfold total_height in Hat. simpl in Hat. fold (total_height (take k r)) in Hat.
    simpl. destruct k as [|k].
    + rewrite take_0 in Hat. unfold total_height in Hat. simpl in Hat.
      assert ((capacity <? c0 + h) = true) as -> by (apply Z.ltb_lt; lia).
      f_equal. lia.
    + assert ((capacity <? c0 + h) = false) as ->.
      { apply Z.ltb_ge. specialize (Hbefore O ltac:(lia)).
        unfold total_height in Hbefore. simpl in Hbefore. lia. }
      rewrite (IH (S i) (c0 + h) capacity k); [f_equal; lia|simpl in Hk; lia|done| |].
      * intros j Hj. specialize (Hbefore (S j) ltac:(lia)).
        unfold total_height in *. simpl in Hbefore. lia.
      * lia.
Qed.

(** A text node has no height: once the loop has met one, the running
    total is NaN and no later node is taken as the split point. *)
Lemma find_split_NaN l i maxHeight : find_split l i NaN maxHeight = None.
Proof.
  revert i. induction l as [|n r IH]; intros i; simpl; [done|]. apply IH.
Qed.

Section SplitterFacts.

Context `{Surface}.

(** C1. With [k] the first index at which the running total of the
    heights exceeds the capacity, the nodes up to [k] being blocks: the
    overflow the splitter returns is the markup of every node from [k]
    on, one after the other in their order, and the region keeps the
    markup of the blocks before [k], in their order (the placeholder
    when there is none). *)
Theorem extractOverflowContent_first_excess (html : string) (capacity : Z) (k : nat) :
  (k < length (childNodes html))%nat ->
  Forall (fun n => is_block n = true) (take (S k) (childNodes html)) ->
  (forall j, (j < k)%nat -> total_height (take (S j) (childNodes html)) <= capacity) ->
  capacity < total_height (take (S k) (childNodes html)) ->
  extractOverflowContent html (Num capacity) =
    (if bool_decide (k = O) then placeholder
     else String.concat "" (outerHTML_or_textContent <$> take k (childNodes html)),
     String.concat "" (outerHTML_or_textContent <$> drop k (childNodes html))).
Proof.
  intros Hk Hall Hbefore Hat. unfold extractOverflowContent.
  rewrite (find_split_first_excess _ O 0 capacity k Hk Hall);
    [|intros j Hj; specialize (Hbefore j Hj); lia|lia].
  simpl. rewrite collect_concat. f_equal.
  assert (Forall (fun n => is_element n = true) (take k (childNodes html))) as Hel.
  { replace (take k (childNodes html)) with (take k (take (S k) (childNodes html)))
      by (rewrite take_take; f_equal; lia).
    apply Forall_take. eapply Forall_impl; [done|]. apply is_block_element. }
  rewrite <- innerHTML_concat by done.
  destruct k as [|k]; [done|].
  destruct (childNodes html) as [|n r] eqn:E; [simpl in Hk; lia|].
  change (take (S (S k)) (n :: r)) with (n :: take (S k) r) in Hall.
  inversion Hall; subst.
  rewrite bool_decide_eq_false_2 by done.
  change (take (S k) (n :: r)) with (n :: take k r).
  by rewrite innerHTML_blocks_not_blank.
Qed.

(** C3. When the first block of a region is alone higher than the
    capacity, the splitter returns the whole markup of that block,
    followed by that of every node after it, and leaves the placeholder
    break in the region. *)
Theorem extractOverflowContent_oversized_first (html block : string)
    (h capacity : Z) (rest : list node) :
  childNodes html = Element block h :: rest ->
  capacity < h ->
  extractOverflowContent html (Num capacity) = (placeholder, block +:+ collect rest).
Proof.
  intros E Hh. unfold extractOverflowContent. rewrite E. simpl.
  by assert ((capacity <? 0 + h) = true) as -> by (apply Z.ltb_lt; lia).
Qed.

End SplitterFacts.

(** The scenario of C1: capacity 1000 and three blocks of heights 300,
    400 and 500; the first two stay, the third is the overflow.  With
    a fourth block and a break after them, the three of them are the
    overflow, in their order. *)
Lemma extractOverflowContent_first_excess_witness :
  @extractOverflowContent Flat.surface "<p>abc</p><p>abcd</p><p>abcde</p>" (Num 1000) =
    ("<p>abc</p><p>abcd</p>", "<p>abcde</p>") /\
  @extractOverflowContent Flat.surface
     "<p>abc</p><p>abcd</p><p>abcde</p><p>abc</p><br>" (Num 1000) =
    ("<p>abc</p><p>abcd</p>", "<p>abcde</p><p>abc</p><br>").
Proof.
  split.
  - apply (@extractOverflowContent_first_excess Flat.surface
             "<p>abc</p><p>abcd</p><p>abcde</p>" 1000 2).
    + change (2 < 3)%nat. lia.
    + change (Forall (fun n => is_block n = true) [Flat.p3; Flat.p4; Flat.p5]).
      repeat (constructor; [reflexivity|]). constructor.
    + intros j Hj. destruct j as [|[|j]]; [vm_compute; discriminate..|lia].
    + vm_compute. reflexivity.
  - apply (@extractOverflowContent_first_excess Flat.surface
             "<p>abc</p><p>abcd</p><p>abcde</p><p>abc</p><br>" 1000 2).
    + change (2 < 5)%nat. lia.
    + change (Forall (fun n => is_block n = true) [Flat.p3; Flat.p4; Flat.p5]).
      repeat (constructor; [reflexivity|]). constructor.
    + intros j Hj. destruct j as [|[|j]]; [vm_compute; discriminate..|lia].
    + vm_compute. reflexivity.
Defined.

Lemma extractOverflowContent_oversized_first_witness :
  @extractOverflowContent Flat.surface "<p>abcdeabcdeab</p><p>abc</p>" (Num 1000) =
    ("<br>", "<p>abcdeabcdeab</p><p>abc</p>").
Proof.
  apply (@extractOverflowContent_oversized_first Flat.surface
           "<p>abcdeabcdeab</p><p>abc</p>" "<p>abcdeabcdeab</p>" 1200 1000 [Flat.p3]).
  - vm_compute. reflexivity.
  - lia.
Defined.

(** ** Bookkeeping *)

Lemma editor_renumber i p : editor (renumber i p) = editor p.
Proof. unfold renumber. by destruct (page_number p). Qed.

Lemma wired_renumber i p : wired (renumber i p) = wired p.
Proof. unfold renumber. by destruct (page_number p). Qed.

Lemma editor_imap_renumber ps : editor <$> imap renumber ps = editor <$> ps.
Proof.
  rewrite fmap_imap, <- (imap_const editor ps).
  apply imap_ext. intros i p _. apply editor_renumber.
Qed.

Lemma pages_updateUI st : pages (updateUI st) = imap renumber (pages st).
Proof. done. Qed.

Lemma editor_at_updateUI st i : editor_at (updateUI st) i = editor_at st i.
Proof.
  unfold editor_at. rewrite pages_updateUI, list_lookup_imap.
  destruct (pages st !! i) as [p|]; simpl; [apply editor_renumber|done].
Qed.

Lemma editor_at_Some st i html :
  editor_at st i = Some html <->
  exists p, pages st !! i = Some p /\ editor p = Some html.
Proof.
  unfold editor_at. destruct (pages st !! i) as [p|]; simpl.
  - split; [by exists p|]. by intros (q & [= <-] & Hq).
  - split; [done|]. by intros (q & Hq & _).
Qed.

Lemma editor_at_lt st i html : editor_at st i = Some html -> (i < length (pages st))%nat.
Proof.
  intros (p & Hp & _)%editor_at_Some. by apply lookup_lt_Some in Hp.
Qed.

Lemma editor_at_ge st i : (length (pages st) <= i)%nat -> editor_at st i = None.
Proof. intros Hi. unfold editor_at. by rewrite lookup_ge_None_2. Qed.

Lemma pages_set_editor st i html new :
  editor_at st i = Some html ->
  exists p, pages st !! i = Some p /\
    pages (set_editor i new st) = <[i := Page (Some new) (page_number p) (wired p)]> (pages st).
Proof.
  intros (p & Hp & He)%editor_at_Some. exists p. split; [done|].
  unfold set_editor. simpl. rewrite Hp. unfold set_innerHTML. by rewrite He.
Qed.

Lemma pages_set_editor_None st i new :
  editor_at st i = None -> pages (set_editor i new st) = pages st.
Proof.
  unfold editor_at, set_editor. simpl.
  destruct (pages st !! i) as [p|] eqn:E; simpl; [|done].
  intros He. unfold set_innerHTML. rewrite He. by apply list_insert_id.
Qed.

Lemma length_set_editor st i new : length (pages (set_editor i new st)) = length (pages st).
Proof.
  unfold set_editor. simpl. destruct (pages st !! i); [apply length_insert|done].
Qed.

Lemma editor_at_set_editor st i html new :
  editor_at st i = Some html -> editor_at (set_editor i new st) i = Some new.
Proof.
  intros He. destruct (pages_set_editor st i html new He) as (p & Hp & Hps).
  unfold editor_at. rewrite Hps, list_lookup_insert_eq; [done|]. by apply lookup_lt_Some in Hp.
Qed.

Lemma editor_at_set_editor_ne st i j new :
  i <> j -> editor_at (set_editor i new st) j = editor_at st j.
Proof.
  intros Hij. unfold editor_at, set_editor. simpl.
  destruct (pages st !! i); [|done]. by rewrite list_lookup_insert_ne.
Qed.

Lemma focus_wired st i p :
  pages st !! i = Some p -> wired p = true ->
  focus i st =
    set_currentPage (i + 1) (set_selectedEditor (Some i) (set_activeElement (Some i) st)).
Proof.
  intros Hp Hw. unfold focus, updateCurrentPage. rewrite Hp, Hw. simpl. by rewrite Hp.
Qed.

(** What addPage does to a document whose first page has a region: one
    page more, at the end, with an empty region and its events wired. *)
Lemma addPage_Done st first :
  head (pages st) = Some first ->
  is_Some (editor first) ->
  exists st', addPage st = Done st' /\
    pages st' = imap renumber (pages st ++ [Page (Some "") (page_number first) true]) /\
    totalPages st' = S (length (pages st)) /\
    currentPage st' = S (length (pages st)) /\
    selectedEditor st' = Some (length (pages st)) /\
    activeElement st' = Some (length (pages st)).
Proof.
  intros Hh [html He]. unfold addPage.
  destruct (pages st) as [|p ps] eqn:E; [done|]. simpl in Hh. simplify_eq.
  unfold template. rewrite He. cbn [fmap option_fmap option_map editor].
  set (tpl := Page (Some "") (page_number first) true).
  set (st1 := set_pages _ st).
  assert (pages st1 !! length (first :: ps) = Some tpl) as Hl.
  { unfold st1. simpl pages. rewrite E. by apply list_lookup_middle. }
  rewrite (focus_wired _ _ _ Hl eq_refl).
  eexists. split; [done|]. unfold st1. simpl. rewrite E.
  rewrite length_imap. simpl. rewrite length_app. simpl.
  repeat split; try done; f_equal; lia.
Qed.


(** ** The controller *)

Lemma pages_schedule i ms st : pages (schedule i ms st) = pages st.
Proof. unfold schedule, clearTimeout. by destruct (typingTimer st). Qed.

Lemma editor_at_schedule i ms st j : editor_at (schedule i ms st) j = editor_at st j.
Proof. unfold editor_at. by rewrite pages_schedule. Qed.

Lemma addPage_pages st first :
  head (pages st) = Some first ->
  exists st', addPage st = Done st' /\
    pages st' = imap renumber (pages st ++ [template first]) /\
    documentModified st' = documentModified st /\
    timers st' = timers st /\ typingTimer st' = typingTimer st /\
    pageHeight st' = pageHeight st.
Proof.
  intros Hh. unfold addPage.
  destruct (pages st) as [|p ps] eqn:E; [done|]. simpl in Hh. simplify_eq.
  fold (template first).
  set (st1 := set_pages _ st).
  destruct (editor (template first)) eqn:He.
  - assert (pages st1 !! length (first :: ps) = Some (template first)) as Hl.
    { unfold st1. simpl pages. rewrite E. by apply list_lookup_middle. }
    rewrite (focus_wired _ _ _ Hl eq_refl).
    eexists. split; [done|]. unfold st1. simpl. by rewrite E.
  - eexists. split; [done|]. unfold st1. simpl. by rewrite E.
Qed.

Lemma addPage_not_Thrown st i html e st' :
  editor_at st i = Some html -> addPage st <> Thrown e st'.
Proof.
  intros (p & Hp & _)%editor_at_Some.
  destruct (pages st) as [|first ps] eqn:E; [done|].
  destruct (addPage_pages st first) as (st2 & -> & _); [by rewrite E|done].
Qed.

Section ControllerFacts.
Context `{Surface}.

(** C5. When the content height of a region is at most the capacity
    plus the tolerance of 5, the overflow check returns and changes
    neither the number of pages nor the content of any region. *)
Theorem checkPageOverflow_stable (depth i : nat) (st : state) (html : string) (capacity : Z) :
  editor_at st i = Some html ->
  pageHeight st = Num capacity ->
  scrollHeight html <= capacity + 5 ->
  exists st', checkPageOverflow (S depth) i st = Done st' /\
    length (pages st') = length (pages st) /\
    forall j, editor_at st' j = editor_at st j.
Proof.
  intros He Hc Hfit. cbn [checkPageOverflow]. rewrite He, Hc.
  destruct (bool_decide _ && negb _).
  - eexists. split; [reflexivity|]. split; [by rewrite pages_schedule|intros j; by rewrite editor_at_schedule].
  - cbn [js_add js_gt]. 
    assert ((capacity + 5 <? scrollHeight html) = false) as -> by (apply Z.ltb_ge; lia).
    cbn [bind]. eexists. split; [reflexivity|]. split.
    + rewrite pages_updateUI. apply length_imap.
    + apply editor_at_updateUI.
Qed.


(** The check of a region that overflows, once the splitter has returned
    an overflow that is not blank *)
Lemma checkPageOverflow_overflowing (depth i : nat) (st : state)
    (html retained overflow : string) :
  editor_at st i = Some html ->
  scrollHeight html <> 0 ->
  js_gt (Num (scrollHeight html)) (js_add (pageHeight st) (Num 5)) = true ->
  extractOverflowContent html (pageHeight st) = (retained, overflow) ->
  blank overflow = false ->
  let st1 := set_editor i retained (emit detected st) in
  checkPageOverflow (S depth) i st =
    (let! st' :=
       (if bool_decide (S i = length (pages st)) then
          overflow_to_new_page (checkPageOverflow depth) overflow st1
        else
          match editor_at st (i + 1) with
          | Some next =>
              checkPageOverflow depth (i + 1)
                (set_editor (i + 1) (overflow +:+ next) st1)
          | None => overflow_to_new_page (checkPageOverflow depth) overflow st1
          end) in
     Done (updateUI st')).
Proof.
  intros He Hs Hgt Hx Hb st1.
  assert (editor_at st1 (i + 1) = editor_at st (i + 1)) as <-.
  { unfold st1. by rewrite editor_at_set_editor_ne by lia. }
  cbn [checkPageOverflow]. rewrite He.
  rewrite (bool_decide_eq_false_2 _ Hs). cbn [andb].
  rewrite Hgt. cbn [pageHeight emit]. by rewrite Hx, Hb.
Qed.

(** The overflow goes to a new page: the page addPage appends has an
    empty region and its events wired, and the overflow becomes the
    content of that region before it is checked. *)
Lemma overflow_to_new_page_appends (check : nat -> state -> result)
    (overflow : string) (st1 : state) (first : page) :
  head (pages st1) = Some first -> is_Some (editor first) ->
  let n := length (pages st1) in
  exists st2 new,
    addPage st1 = Done st2 /\
    length (pages st2) = S n /\
    pages st2 !! n = Some new /\ editor new = Some "" /\ wired new = true /\
    pageHeight st2 = pageHeight st1 /\
    (forall j, (j < n)%nat -> editor_at st2 j = editor_at st1 j) /\
    editor_at (set_editor n overflow st2) n = Some overflow /\
    overflow_to_new_page check overflow st1 = check n (set_editor n overflow st2).
Proof.
  intros Hh Hfirst n.
  destruct (addPage_Done st1 first Hh Hfirst) as (st2 & Hadd & Hps & _).
  assert (pages st2 !! n = Some (renumber n (Page (Some "") (page_number first) true)))
    as Hnew.
  { rewrite Hps, list_lookup_imap, list_lookup_middle by done. done. }
  assert (editor_at st2 n = Some "") as Hen.
  { apply editor_at_Some. eexists. split; [done|]. by rewrite editor_renumber. }
  assert (length (pages st2) = S n) as Hlen.
  { rewrite Hps, length_imap, length_app. simpl. unfold n. lia. }
  exists st2, (renumber n (Page (Some "") (page_number first) true)).
  split; [done|]. split; [done|].
  split; [done|]. split; [by rewrite editor_renumber|].
  split; [by rewrite wired_renumber|].
  split. { by destruct (addPage_pages st1 first Hh) as (st2' & Hadd' & _ & _ & _ & _ & Hph);
             rewrite Hadd in Hadd'; simplify_eq. }
  split.
  { intros j Hj. unfold editor_at. rewrite Hps, list_lookup_imap, lookup_app_l by done.
    destruct (pages st1 !! j); simpl; [apply editor_renumber|done]. }
  split; [by eapply editor_at_set_editor|].
  unfold overflow_to_new_page. rewrite Hadd. cbn [bind].
  replace (length (pages st2) - 1)%nat with n by lia.
  by rewrite Hen.
Qed.


(** One call of checkPageOverflow on the last page, when the first block
    of its region is higher than a page: the region is left with the
    placeholder, a page is appended, the whole content is installed in
    its region, and that region is checked; it is again the last one,
    with the same content and the same page height. *)
Lemma oversized_block_moves (html block : string) (h capacity : Z)
    (rest : list node) :
  childNodes html = Element block h :: rest ->
  block +:+ collect rest = html ->
  blank html = false ->
  capacity < h ->
  capacity + 5 < scrollHeight html ->
  scrollHeight html <> 0 ->
  forall depth i st,
    pageHeight st = Num capacity ->
    editor_at st i = Some html ->
    S i = length (pages st) ->
    (forall j, is_Some (editor_at st j) <-> (j < length (pages st))%nat) ->
    let n := length (pages st) in
    exists st2,
      addPage (set_editor i placeholder (emit detected st)) = Done st2 /\
      let st3 := set_editor n html st2 in
      checkPageOverflow (S depth) i st =
        (let! st' := checkPageOverflow depth n st3 in Done (updateUI st')) /\
      editor_at st3 i = Some placeholder /\
      pageHeight st3 = Num capacity /\
      editor_at st3 n = Some html /\
      S n = length (pages st3) /\
      (forall j, is_Some (editor_at st3 j) <-> (j < length (pages st3))%nat).
Proof.
  intros Hnodes Hcollect Hb Hh Hscroll Hs depth i st Hph He Hlast Hall n.
  assert (extractOverflowContent html (pageHeight st) = (placeholder, html)) as Hx.
  { unfold extractOverflowContent. rewrite Hnodes, Hph. simpl.
    assert ((capacity <? 0 + h) = true) as -> by (apply Z.ltb_lt; lia).
    simpl. by rewrite Hcollect. }
  assert (js_gt (Num (scrollHeight html)) (js_add (pageHeight st) (Num 5)) = true) as Hgt.
  { rewrite Hph. simpl. apply Z.ltb_lt. lia. }
  rewrite (checkPageOverflow_overflowing depth i st html placeholder html He Hs Hgt Hx Hb).
  rewrite (bool_decide_eq_true_2 _ Hlast).
  set (st1 := set_editor i placeholder (emit detected st)).
  assert (length (pages st1) = length (pages st)) as Hlen.
  { unfold st1. by rewrite length_set_editor. }
  assert (editor_at st1 i = Some placeholder) as He1.
  { unfold st1. by apply (editor_at_set_editor _ i html placeholder). }
  assert (forall j, is_Some (editor_at st1 j) <-> (j < length (pages st))%nat) as Hall1.
  { intros j. rewrite <- Hall. destruct (decide (i = j)) as [->|Hne].
    - rewrite He1, He. split; by eexists.
    - unfold st1. by rewrite editor_at_set_editor_ne by done. }
  assert (exists first, head (pages st1) = Some first /\ is_Some (editor first))
    as (first & Hhead & Hfirst).
  { destruct (proj2 (Hall1 O) ltac:(lia)) as [x Hx0].
    apply editor_at_Some in Hx0 as (p & Hp & Hpe).
    exists p. rewrite head_lookup. split; [done|by eexists]. }
  destruct (overflow_to_new_page_appends (checkPageOverflow depth) html st1 first
              Hhead Hfirst)
    as (st2 & new & Hadd & Hl2 & Hnew & Hen & Hw & Hph2 & Hsame & Hset & ->).
  rewrite Hlen in Hl2, Hset, Hsame |- *. fold n in Hl2, Hset, Hsame |- *.
  exists st2. split; [done|]. cbv zeta.
  split; [done|].
  split. { rewrite editor_at_set_editor_ne by (unfold n; lia).
           rewrite Hsame by (unfold n; lia). done. }
  split. { simpl. rewrite Hph2. unfold st1. simpl. done. }
  split; [done|].
  split; [rewrite length_set_editor; lia|].
  intros j. rewrite length_set_editor, Hl2.
  destruct (decide (n = j)) as [<-|Hne].
  - rewrite Hset. split; [lia|by eexists].
  - rewrite editor_at_set_editor_ne by done.
    destruct (decide (j < n)%nat) as [Hlt|Hge].
    + rewrite Hsame, Hall1 by done. unfold n. lia.
    + rewrite editor_at_ge by lia. split; [by intros [? ?]|lia].
Qed.

(** With room for [depth] nested calls, the check of such a region ends
    when the stack is exhausted, [depth] calls further. *)
Lemma oversized_block_exhausts_stack (html block : string) (h capacity : Z)
    (rest : list node) :
  childNodes html = Element block h :: rest ->
  block +:+ collect rest = html ->
  blank html = false ->
  capacity < h ->
  capacity + 5 < scrollHeight html ->
  scrollHeight html <> 0 ->
  forall depth i st,
    pageHeight st = Num capacity ->
    editor_at st i = Some html ->
    S i = length (pages st) ->
    (forall j, is_Some (editor_at st j) <-> (j < length (pages st))%nat) ->
    exists st',
      checkPageOverflow depth i st = Thrown RangeError st' /\
      length (pages st') = (length (pages st) + depth)%nat.
Proof.
  intros Hnodes Hcollect Hb Hh Hscroll Hs.
  induction depth as [|depth IH]; intros i st Hph He Hlast Hall.
  - exists st. split; [done|lia].
  - destruct (oversized_block_moves html block h capacity rest Hnodes Hcollect Hb Hh
                Hscroll Hs depth i st Hph He Hlast Hall)
      as (st2 & _ & Hrun & _ & Hph3 & He3 & Hlast3 & Hall3).
    destruct (IH _ _ Hph3 He3 Hlast3 Hall3) as (st' & Hrun' & Hlen').
    exists st'. rewrite Hrun, Hrun'. split; [done|].
    rewrite Hlen'. lia.
Qed.

(** X9. A first block higher than a page never comes to rest.  On the
    last page of a document whose pages all have a region, a call of
    checkPageOverflow leaves the placeholder in the region, appends a
    page, installs the whole content in its region and checks that
    region, which is again the last one and holds the same content under
    the same page height; so no such call returns, whatever room the
    stack has. *)
Theorem oversized_block_never_comes_to_rest (html block : string) (h capacity : Z)
    (rest : list node) (i : nat) (st : state) :
  childNodes html = Element block h :: rest ->
  block +:+ collect rest = html ->
  blank html = false ->
  capacity < h ->
  capacity + 5 < scrollHeight html ->
  scrollHeight html <> 0 ->
  pageHeight st = Num capacity ->
  editor_at st i = Some html ->
  S i = length (pages st) ->
  (forall j, is_Some (editor_at st j) <-> (j < length (pages st))%nat) ->
  (forall depth,
     let n := length (pages st) in
     exists st2,
       addPage (set_editor i placeholder (emit detected st)) = Done st2 /\
       let st3 := set_editor n html st2 in
       checkPageOverflow (S depth) i st =
         (let! st' := checkPageOverflow depth n st3 in Done (updateUI st')) /\
       editor_at st3 i = Some placeholder /\
       pageHeight st3 = Num capacity /\
       editor_at st3 n = Some html /\
       S n = length (pages st3) /\
       (forall j, is_Some (editor_at st3 j) <-> (j < length (pages st3))%nat)) /\
  (forall depth st', checkPageOverflow depth i st <> Done st').
Proof.
  intros Hnodes Hcollect Hb Hh Hscroll Hs Hph He Hlast Hall. split.
  - intros depth. by eapply oversized_block_moves.
  - intros depth st' Hdone.
    destruct (oversized_block_exhausts_stack html block h capacity rest Hnodes Hcollect
                Hb Hh Hscroll Hs depth i st Hph He Hlast Hall) as (st'' & Hrun & _).
    congruence.
Qed.

End ControllerFacts.

(** ** The runs of the controller *)

Section Steps.

Context `{Surface}.

Lemma steps_then_refresh r st :
  rtc step st (state_of r) ->
  rtc step st (state_of (let! st' := r in Done (updateUI st'))).
Proof.
  destruct r as [st'|e st']; simpl; [|done].
  intros Hr. eapply rtc_r; [done|]. constructor.
Qed.

Lemma checkPageOverflow_steps depth : forall i st,
  rtc step st (state_of (checkPageOverflow depth i st)).
Proof.
  induction depth as [|depth IH]; intros i st; [done|].
  cbn [checkPageOverflow].
  destruct (editor_at st i) as [html|] eqn:He; [|done].
  destruct (bool_decide (scrollHeight html = 0) && negb (blank (innerText html))) eqn:Hretry.
  { apply andb_true_iff in Hretry as [Hs%bool_decide_eq_true Hb%negb_true_iff].
    apply rtc_once. by eapply step_retry. }
  apply steps_then_refresh.
  destruct (js_gt _ _) eqn:Hgt; [|done].
  cbn [pageHeight emit].
  destruct (extractOverflowContent html (pageHeight st)) as [retained overflow] eqn:Hx.
  assert (splits st i retained overflow) as Hsp by (by exists html).
  set (st1 := set_editor i retained (emit detected st)).
  assert (editor_at st1 (i + 1) = editor_at st (i + 1)) as Hnext.
  { unfold st1. by rewrite editor_at_set_editor_ne by lia. }
  assert (length (pages st1) = length (pages st)) as Hlen.
  { unfold st1. by rewrite length_set_editor. }
  destruct (blank overflow) eqn:Hb; cbn [negb].
  { apply rtc_once. by eapply step_no_overflow. }
  assert (editor_at st (i + 1) = None ->
          rtc step st (state_of
            (overflow_to_new_page (checkPageOverflow depth) overflow st1))) as Hnew.
  { intros Hnone. unfold overflow_to_new_page.
    destruct (addPage st1) as [st2|e st2] eqn:Hadd; cbn [bind].
    - assert ((length (pages st2) - 1)%nat = length (pages st)) as ->.
      { destruct (pages st1) as [|first ps] eqn:E.
        { unfold addPage in Hadd. by rewrite E in Hadd. }
        destruct (addPage_pages st1 first) as (st2' & Hadd' & Hps & _); [by rewrite E|].
        rewrite Hadd in Hadd'. simplify_eq.
        rewrite Hps, length_imap, length_app, <- Hlen, E. simpl. lia. }
      destruct (editor_at st2 (length (pages st))) eqn:Hlast.
      + eapply rtc_l; [by eapply step_new_page|]. apply IH.
      + apply rtc_once. by eapply step_no_region.
    - exfalso. eapply (addPage_not_Thrown st1 i); [|done].
      unfold st1. by eapply editor_at_set_editor. }
  clear Hretry. case_bool_decide as Hlast.
  - apply Hnew. apply editor_at_ge. simpl in Hlast. lia.
  - rewrite Hnext. destruct (editor_at st (i + 1)) as [next|] eqn:Hn; [|by apply Hnew].
    eapply rtc_l; [by eapply step_next_page|]. apply IH.
Qed.

End Steps.

(** ** What the steps of the controller keep *)

Lemma timers_schedule i ms st :
  one_pending st ->
  timers (schedule i ms st) = {[ next_timer st := Task i ms ]} /\
  typingTimer (schedule i ms st) = Some (next_timer st).
Proof.
  intros Hone. unfold schedule, setTimeout, clearTimeout.
  destruct (typingTimer st) as [t|] eqn:Ht; simpl; (split; [|done]).
  - apply map_eq. intros id.
    destruct (decide (id = next_timer st)) as [->|Hne].
    + by rewrite lookup_insert_eq, lookup_singleton_eq.
    + rewrite lookup_insert_ne, lookup_singleton_ne by done.
      destruct (decide (id = t)) as [->|Hne']; [apply lookup_delete_eq|].
      rewrite lookup_delete_ne by done.
      destruct (timers st !! id) as [x|] eqn:E; [|done].
      apply Hone in E. congruence.
  - apply map_eq. intros id.
    destruct (decide (id = next_timer st)) as [->|Hne].
    + by rewrite lookup_insert_eq, lookup_singleton_eq.
    + rewrite lookup_insert_ne, lookup_singleton_ne by done.
      destruct (timers st !! id) as [x|] eqn:E; [|done].
      apply Hone in E. congruence.
Qed.

Lemma one_pending_schedule i ms st : one_pending st -> one_pending (schedule i ms st).
Proof.
  intros Hone. destruct (timers_schedule i ms st Hone) as [Ht Hid].
  intros id t. rewrite Ht, Hid. intros [-> _]%lookup_singleton_Some. done.
Qed.

Lemma one_pending_same st st' :
  timers st' = timers st -> typingTimer st' = typingTimer st ->
  one_pending st -> one_pending st'.
Proof. unfold one_pending. intros -> ->. done. Qed.

Lemma addPage_inv st st2 :
  addPage st = Done st2 ->
  exists first, head (pages st) = Some first /\
    pages st2 = imap renumber (pages st ++ [template first]) /\
    documentModified st2 = documentModified st /\
    timers st2 = timers st /\ typingTimer st2 = typingTimer st /\
    pageHeight st2 = pageHeight st.
Proof.
  intros Hadd. destruct (pages st) as [|first ps] eqn:E.
  { unfold addPage in Hadd. by rewrite E in Hadd. }
  destruct (addPage_pages st first) as (st2' & Hadd' & Hrest); [by rewrite E|].
  rewrite Hadd in Hadd'. simplify_eq. exists first. split; [done|].
  rewrite <- E. exact Hrest.
Qed.

Section Invariants.
Context `{Surface}.

Lemma step_documentModified st st' :
  step st st' -> documentModified st' = documentModified st.
Proof.
  destruct 1 as [i html st ? ? ?|st|i r o st ? ?|i r o next st ? ? ?
                |i r o st st2 ? ? ? Hadd|i r o st st2 ? ? ? Hadd ?]; simpl.
  - unfold schedule, clearTimeout. by destruct (typingTimer st).
  - done.
  - done.
  - done.
  - by destruct (addPage_inv _ _ Hadd) as (first & _ & _ & -> & _).
  - by destruct (addPage_inv _ _ Hadd) as (first & _ & _ & -> & _).
Qed.

Lemma steps_documentModified st st' :
  rtc step st st' -> documentModified st' = documentModified st.
Proof.
  induction 1 as [|st st1 st2 Hs _ IH]; [done|].
  rewrite IH. by apply step_documentModified.
Qed.

Lemma step_one_pending st st' : step st st' -> one_pending st -> one_pending st'.
Proof.
  destruct 1 as [i html st ? ? ?|st|i r o st ? ?|i r o next st ? ? ?
                |i r o st st2 ? ? ? Hadd|i r o st st2 ? ? ? Hadd ?]; intros Hone.
  - apply one_pending_schedule. by eapply one_pending_same.
  - by eapply one_pending_same.
  - by eapply one_pending_same.
  - by eapply one_pending_same.
  - destruct (addPage_inv _ _ Hadd) as (first & _ & _ & _ & Ht & Hid & _).
    eapply one_pending_same; [| |exact Hone]; simpl; done.
  - destruct (addPage_inv _ _ Hadd) as (first & _ & _ & _ & Ht & Hid & _).
    eapply one_pending_same; [| |exact Hone]; simpl; done.
Qed.

Lemma steps_one_pending st st' : rtc step st st' -> one_pending st -> one_pending st'.
Proof. induction 1; eauto using step_one_pending. Qed.

Lemma checkAllPagesForOverflow_steps depth st :
  rtc step st (state_of (checkAllPagesForOverflow depth st)).
Proof.
  unfold checkAllPagesForOverflow.
  generalize (seq 0 (length (pages st))). intros l.
  assert (forall r, rtc step st (state_of r) ->
    rtc step st (state_of
      (foldl (fun r i => let! st' := r in checkPageOverflow depth i st') r l))) as Hgen.
  { induction l as [|i l IH]; intros r Hr; simpl; [done|].
    apply IH. destruct r as [st'|e st']; simpl in *; [|done].
    etrans; [done|]. apply checkPageOverflow_steps. }
  by apply Hgen.
Qed.

End Invariants.

(** ** The debounce timer *)

Lemma addPage_Thrown st e st' : addPage st = Thrown e st' -> st' = st.
Proof.
  unfold addPage. destruct (pages st); [|done]. by intros [= _ ->].
Qed.

Lemma timers_focus i st : timers (focus i st) = timers st.
Proof. unfold focus, updateCurrentPage. repeat (case_match; simpl); done. Qed.

Lemma typingTimer_focus i st : typingTimer (focus i st) = typingTimer st.
Proof. unfold focus, updateCurrentPage. repeat (case_match; simpl); done. Qed.

Lemma timers_onKeydown key st :
  timers (onKeydown key st) = timers st /\
  typingTimer (onKeydown key st) = typingTimer st.
Proof.
  unfold onKeydown.
  repeat (case_match; simpl; try done); by rewrite timers_focus, typingTimer_focus.
Qed.

Lemma timers_resetDocument st :
  timers (resetDocument st) = timers st /\
  typingTimer (resetDocument st) = typingTimer st.
Proof.
  unfold resetDocument, focusFirstEditor.
  repeat (case_match; simpl; try done); by rewrite timers_focus, typingTimer_focus.
Qed.

Lemma timers_calculatePageDimensions m st :
  timers (calculatePageDimensions m st) = timers st /\
  typingTimer (calculatePageDimensions m st) = typingTimer st.
Proof.
  unfold calculatePageDimensions. repeat (case_match; simpl; try done).
Qed.

Section Debounce.
Context `{Surface}.

Lemma handle_one_pending depth st e : one_pending st -> one_pending (handle depth st e).
Proof.
  intros Hone. destruct e as [i html|i|id|m|key| |]; simpl.
  - apply one_pending_schedule. by eapply one_pending_same.
  - by apply one_pending_schedule.
  - unfold timeout_elapses. destruct (timers st !! id) as [t|] eqn:E; [|done].
    eapply steps_one_pending; [apply checkPageOverflow_steps|].
    intros id' t'. simpl. intros [_ Hl]%lookup_delete_Some. by eapply Hone.
  - eapply steps_one_pending; [apply checkAllPagesForOverflow_steps|].
    destruct (timers_calculatePageDimensions m st) as [Ht Hid].
    by eapply one_pending_same.
  - destruct (timers_onKeydown key st) as [Ht Hid]. by eapply one_pending_same.
  - destruct (addPage st) as [st'|e st'] eqn:Hadd; simpl.
    + destruct (addPage_inv _ _ Hadd) as (first & _ & _ & _ & Ht & Hid & _).
      by eapply one_pending_same.
    + by rewrite (addPage_Thrown _ _ _ Hadd).
  - destruct (timers_resetDocument st) as [Ht Hid]. by eapply one_pending_same.
Qed.

Lemma run_one_pending depth trace : forall st,
  one_pending st -> one_pending (run depth trace st).
Proof.
  induction trace as [|e trace IH]; intros st Hone; [done|].
  simpl. apply IH. by apply handle_one_pending.
Qed.

(** C10. Whatever the events so far, every pending timeout is the one
    scheduled last; a timeout that has been superseded does nothing
    when its delay elapses; and scheduling a check of a region leaves
    that check as the only pending one, whatever was pending before. *)
Theorem only_the_latest_check_runs (depth : nat) (trace : list event) (st0 : state) :
  timers st0 = ∅ ->
  let st := run depth trace st0 in
  (forall id t, timers st !! id = Some t -> typingTimer st = Some id) /\
  (forall id, typingTimer st <> Some id -> timeout_elapses depth id st = Done st) /\
  (forall r ms,
     timers (schedule r ms st) = {[ next_timer st := Task r ms ]} /\
     typingTimer (schedule r ms st) = Some (next_timer st)).
Proof.
  intros Hempty st.
  assert (one_pending st) as Hone.
  { apply run_one_pending. intros id t. by rewrite Hempty, lookup_empty. }
  split; [exact Hone|]. split.
  - intros id Hid. unfold timeout_elapses.
    destruct (timers st !! id) as [t|] eqn:E; [|done].
    by apply Hone in E.
  - intros r ms. by apply timers_schedule.
Qed.
End Debounce.

(** ** Page removal, numbering and the region invariant *)

Lemma numbered_imap_renumber ps : numbered (imap renumber ps).
Proof.
  intros j p n. rewrite list_lookup_imap.
  destruct (ps !! j) as [q|]; simpl; [|done].
  intros [= <-]. unfold renumber.
  destruct (page_number q) eqn:E; simpl; [intros [= <-]; lia|by rewrite E].
Qed.

Lemma onKeydown_removes st a html prev :
  activeElement st = Some a ->
  editor_at st a = Some html ->
  htmlContent html = "" ->
  (0 < a)%nat ->
  editor_at st (a - 1) = Some prev ->
  let st' := onKeydown "Backspace" st in
  pages st' = imap renumber (delete a (pages st)) /\
  activeElement st' = Some (a - 1)%nat /\
  selectedEditor st' = Some (a - 1)%nat /\
  totalPages st' = length (pages st') /\
  (currentPage st' <= totalPages st')%nat /\
  documentModified st' = documentModified st.
Proof.
  intros Ha He Hc Hpos Hprev. unfold onKeydown. rewrite Ha, He, Hc.
  rewrite !bool_decide_eq_true_2 by done. cbn [andb].
  unfold editor_at in Hprev. rewrite Hprev.
  unfold focus, updateCurrentPage. simpl.
  rewrite list_lookup_delete_lt by lia.
  destruct (pages st !! (a - 1)%nat) as [q|] eqn:Eq; [|done].
  destruct (wired q); simpl; rewrite ?list_lookup_delete_lt, ?Eq by lia; simpl;
    rewrite !length_imap; repeat split; try done; lia.
Qed.

Lemma onKeydown_first_page key st : activeElement st = Some O -> onKeydown key st = st.
Proof.
  intros Ha. unfold onKeydown. rewrite Ha.
  destruct (editor_at st 0); [|done].
  by destruct (bool_decide (key = "Backspace") && _).
Qed.

(** C6. A Backspace in a region that holds nothing but breaks, spaces and
    non-breaking spaces: on the first page nothing happens, whatever the
    key, and the caret stays; on a later page the page is removed, the
    remaining pages are renumbered, the first page keeps its region, and
    the region of the previous page becomes the active element and the
    selected editor, with the caret where the host puts it in a region
    that takes the focus. *)
Theorem backspace_removes_empty_page (st : state) (a : nat) (html : string) :
  activeElement st = Some a ->
  editor_at st a = Some html ->
  htmlContent html = "" ->
  (a = O -> forall key,
     onKeydown key st = st /\
     forall (host : Host) caret, caret_after_keydown key st caret = caret) /\
  (forall prev,
     (0 < a)%nat -> editor_at st (a - 1) = Some prev ->
     let st' := onKeydown "Backspace" st in
     pages st' = imap renumber (delete a (pages st)) /\
     numbered (pages st') /\
     editor_at st' 0 = editor_at st 0 /\
     activeElement st' = Some (a - 1)%nat /\
     selectedEditor st' = Some (a - 1)%nat /\
     totalPages st' = length (pages st') /\
     forall (host : Host) caret,
       caret_after_keydown "Backspace" st caret
       = Some ((a - 1)%nat, caret_on_focus prev)).
Proof.
  intros Ha He Hc. split.
  - intros -> key. split; [by apply onKeydown_first_page|].
    intros host caret. unfold caret_after_keydown. rewrite Ha, He.
    by destruct (bool_decide (key = "Backspace") && _).
  - intros prev Hpos Hprev.
    destruct (onKeydown_removes st a html prev Ha He Hc Hpos Hprev)
      as (Hps & Hact & Hsel & Htot & _).
    repeat split; try done.
    + rewrite Hps. apply numbered_imap_renumber.
    + unfold editor_at. rewrite Hps, list_lookup_imap, list_lookup_delete_lt by lia.
      destruct (pages st !! O); simpl; [apply editor_renumber|done].
    + intros host caret. unfold caret_after_keydown. rewrite Ha, He, Hc.
      rewrite !bool_decide_eq_true_2 by done. cbn [andb].
      unfold editor_at in Hprev. by rewrite Hprev.
Qed.

Lemma blank_retained `{Surface} html maxHeight :
  blank html = false -> blank (extractOverflowContent html maxHeight).1 = false.
Proof.
  intros Hb. unfold extractOverflowContent.
  destruct (find_split _ _ _ _); simpl; [|done].
  by destruct (blank (innerHTML _)) eqn:E.
Qed.

Lemma regions_focusable_set_editor st i new :
  blank new = false -> regions_focusable st -> regions_focusable (set_editor i new st).
Proof.
  intros Hn Hf j html. destruct (decide (i = j)) as [->|Hne].
  - destruct (editor_at st j) as [old|] eqn:E.
    + rewrite (editor_at_set_editor st j old new E). by intros [= <-].
    + unfold editor_at in *. rewrite (pages_set_editor_None st j new E), E. done.
  - rewrite editor_at_set_editor_ne by done. apply Hf.
Qed.

Lemma regions_focusable_same st st' :
  (forall j, editor_at st' j = editor_at st j) ->
  regions_focusable st -> regions_focusable st'.
Proof. intros Hsame Hf j html. rewrite Hsame. apply Hf. Qed.

Lemma editor_at_addPage st st2 :
  addPage st = Done st2 ->
  forall j, (j < length (pages st))%nat -> editor_at st2 j = editor_at st j.
Proof.
  intros Hadd j Hj. destruct (addPage_inv _ _ Hadd) as (first & _ & Hps & _).
  unfold editor_at. rewrite Hps, list_lookup_imap, lookup_app_l by done.
  destruct (pages st !! j); simpl; [apply editor_renumber|done].
Qed.

Lemma length_addPage st st2 :
  addPage st = Done st2 -> length (pages st2) = S (length (pages st)).
Proof.
  intros Hadd. destruct (addPage_inv _ _ Hadd) as (first & _ & Hps & _).
  rewrite Hps, length_imap, length_app. simpl. lia.
Qed.

Section Regions.
Context `{Surface}.

Lemma step_regions_focusable st st' :
  step st st' -> regions_focusable st -> regions_focusable st'.
Proof.
  destruct 1 as [i html st ? ? ?|st|i r o st Hsp ?|i r o next st Hsp ? ?
                |i r o st st2 Hsp ? ? Hadd|i r o st st2 Hsp ? ? Hadd Hnone]; intros Hf.
  - eapply regions_focusable_same; [|done]. intros j. by rewrite editor_at_schedule.
  - eapply regions_focusable_same; [|done]. apply editor_at_updateUI.
  - destruct Hsp as (html & He & _ & Hx).
    apply regions_focusable_set_editor; [|done].
    replace r with (extractOverflowContent html (pageHeight st)).1 by (by rewrite Hx).
    apply blank_retained. by eapply Hf.
  - destruct Hsp as (html & He & _ & Hx).
    apply regions_focusable_set_editor; [by rewrite blank_app, H0|].
    apply regions_focusable_set_editor; [|done].
    replace r with (extractOverflowContent html (pageHeight st)).1 by (by rewrite Hx).
    apply blank_retained. by eapply Hf.
  - destruct Hsp as (html & He & _ & Hx).
    set (st1 := set_editor i r (emit detected st)) in *.
    assert (regions_focusable st1) as Hf1.
    { apply regions_focusable_set_editor; [|done].
      replace r with (extractOverflowContent html (pageHeight st)).1 by (by rewrite Hx).
      apply blank_retained. by eapply Hf. }
    assert (length (pages st1) = length (pages st)) as Hlen
      by (unfold st1; by rewrite length_set_editor).
    intros j html'. destruct (decide (j = length (pages st))) as [->|Hne].
    + destruct (editor_at st2 (length (pages st))) as [old|] eqn:E.
      * rewrite (editor_at_set_editor _ _ old o E). by intros [= <-].
      * unfold editor_at in *. by rewrite (pages_set_editor_None _ _ o E), E.
    + rewrite editor_at_set_editor_ne by done.
      destruct (decide (j < length (pages st))%nat) as [Hlt|Hge].
      * rewrite (editor_at_addPage _ _ Hadd) by lia. apply Hf1.
      * rewrite editor_at_ge; [done|]. rewrite (length_addPage _ _ Hadd). lia.
  - destruct Hsp as (html & He & _ & Hx).
    set (st1 := set_editor i r (emit detected st)) in *.
    assert (regions_focusable st1) as Hf1.
    { apply regions_focusable_set_editor; [|done].
      replace r with (extractOverflowContent html (pageHeight st)).1 by (by rewrite Hx).
      apply blank_retained. by eapply Hf. }
    assert (length (pages st1) = length (pages st)) as Hlen
      by (unfold st1; by rewrite length_set_editor).
    intros j html'. destruct (decide (j = length (pages st))) as [->|Hne].
    + by rewrite Hnone.
    + destruct (decide (j < length (pages st))%nat) as [Hlt|Hge].
      * rewrite (editor_at_addPage _ _ Hadd) by lia. apply Hf1.
      * rewrite editor_at_ge; [done|]. rewrite (length_addPage _ _ Hadd). lia.
Qed.

Lemma steps_regions_focusable st st' :
  rtc step st st' -> regions_focusable st -> regions_focusable st'.
Proof. induction 1; eauto using step_regions_focusable. Qed.

End Regions.

Lemma pages_emit e st : pages (emit e st) = pages st.
Proof. done. Qed.

Lemma pages_focus i st : pages (focus i st) = pages st.
Proof. unfold focus, updateCurrentPage. repeat (case_match; simpl); done. Qed.

Lemma pages_focusFirstEditor st : pages (focusFirstEditor st) = pages st.
Proof.
  unfold focusFirstEditor. repeat (case_match; simpl); try done. apply pages_focus.
Qed.

Lemma pages_resetDocument st first :
  head (pages st) = Some first ->
  pages (resetDocument st) = imap renumber [set_innerHTML "" first].
Proof.
  intros Hh. unfold resetDocument.
  destruct (pages st) as [|p ps]; [done|]. simpl in Hh. simplify_eq.
  rewrite pages_emit, pages_updateUI, pages_focusFirstEditor. done.
Qed.

Lemma resetDocument_region st first :
  head (pages st) = Some first -> is_Some (editor first) ->
  editor_at (resetDocument st) 0 = Some "" /\
  documentModified (resetDocument st) = false.
Proof.
  intros Hh [html He]. split.
  - unfold editor_at. rewrite (pages_resetDocument st first Hh). simpl.
    rewrite editor_renumber. unfold set_innerHTML. by rewrite He.
  - unfold resetDocument.
    destruct (pages st) as [|p ps]; [done|]. simpl.
    unfold focusFirstEditor, focus, updateCurrentPage.
    repeat (case_match; simpl); done.
Qed.

Lemma addPage_region st st' first :
  head (pages st) = Some first -> is_Some (editor first) ->
  addPage st = Done st' ->
  editor_at st' (length (pages st)) = Some "".
Proof.
  intros Hh [html He] Hadd.
  destruct (addPage_inv _ _ Hadd) as (first' & Hh' & Hps & _).
  rewrite Hh in Hh'. simplify_eq.
  unfold editor_at. rewrite Hps, list_lookup_imap, list_lookup_middle by done.
  simpl. rewrite editor_renumber. unfold template. by rewrite He.
Qed.






Section CurrentPage.
Context `{Surface}.



End CurrentPage.

Section RegionInvariant.
Context `{Surface}.

(** C8. The splitter, every completed step of the overflow check and
    every overflow check that returns keep all regions non-blank: a
    split that empties a region leaves the placeholder in it, and a
    redistribution writes markup that is not blank.  resetDocument and
    addPage leave the region they clear with the empty markup, without a
    placeholder. *)
Theorem placeholder_kept_by_the_splitter (st : state) (first : page) :
  head (pages st) = Some first ->
  is_Some (editor first) ->
  regions_focusable st ->
  (forall html maxHeight,
     blank html = false -> blank (extractOverflowContent html maxHeight).1 = false) /\
  (forall st', rtc step st st' -> regions_focusable st') /\
  (forall depth i st',
     checkPageOverflow depth i st = Done st' -> regions_focusable st') /\
  editor_at (resetDocument st) 0 = Some "" /\
  (forall st', addPage st = Done st' -> editor_at st' (length (pages st)) = Some "").
Proof.
  intros Hh Hfirst Hf. split; [apply blank_retained|].
  split; [intros st' Hs; by eapply steps_regions_focusable|].
  split.
  { intros depth i st' Hdone.
    change st' with (state_of (Done st')). rewrite <- Hdone.
    eapply steps_regions_focusable; [apply checkPageOverflow_steps|done]. }
  split; [by eapply resetDocument_region|].
  intros st' Hadd. by eapply addPage_region.
Qed.


End RegionInvariant.

(** ** Conservation of content *)



Lemma insert_two_app {A} (l1 : list A) x y l2 x' y' :
  <[S (length l1) := y']> (<[length l1 := x']> (l1 ++ x :: y :: l2)) = l1 ++ x' :: y' :: l2.
Proof. induction l1 as [|a l1 IH]; simpl; [done|]. by f_equal. Qed.

Lemma split_two {A} (l : list A) i x y :
  l !! i = Some x -> l !! S i = Some y ->
  l = take i l ++ x :: y :: drop (S (S i)) l /\ length (take i l) = i.
Proof.
  intros Hx Hy. split.
  - rewrite <- (drop_S l y (S i) Hy). by rewrite take_drop_middle.
  - apply length_take_le. apply lookup_lt_Some in Hx. lia.
Qed.

Lemma split_last {A} (l : list A) i x :
  l !! i = Some x -> S i = length l ->
  l = take i l ++ [x] /\ length (take i l) = i.
Proof.
  intros Hx Hl. split.
  - rewrite <- (take_drop_middle l i x Hx) at 1.
    by rewrite (drop_ge l (S i)) by lia.
  - apply length_take_le. lia.
Qed.

Lemma editor_at_regions st i : editor_at st i = regions st !! i ≫= id.
Proof.
  unfold editor_at, regions. rewrite list_lookup_fmap.
  by destruct (pages st !! i).
Qed.

Lemma regions_lookup st i html :
  editor_at st i = Some html <-> regions st !! i = Some (Some html).
Proof.
  rewrite editor_at_regions. destruct (regions st !! i) as [[r|]|]; simpl; naive_solver.
Qed.

Lemma regions_set_editor st i old new :
  editor_at st i = Some old ->
  regions (set_editor i new st) = <[i := Some new]> (regions st).
Proof.
  intros He. destruct (pages_set_editor st i old new He) as (p & Hp & Hps).
  unfold regions. by rewrite Hps, list_fmap_insert.
Qed.

Lemma regions_updateUI st : regions (updateUI st) = regions st.
Proof. unfold regions. rewrite pages_updateUI. apply editor_imap_renumber. Qed.

Lemma regions_addPage st st2 :
  addPage st = Done st2 ->
  exists first, head (pages st) = Some first /\
    regions st2 = regions st ++ [(fun _ => "") <$> editor first].
Proof.
  intros Hadd. destruct (addPage_inv _ _ Hadd) as (first & Hh & Hps & _).
  exists first. split; [done|].
  unfold regions. by rewrite Hps, editor_imap_renumber, fmap_app.
Qed.

Lemma well_formed_regions faithful st :
  well_formed faithful st <-> Forall (region_ok faithful) (regions st).
Proof.
  unfold well_formed, every_page_has_region, regions. split.
  - intros [Hall Hr]. apply Forall_fmap, Forall_forall. intros p Hp. simpl.
    destruct (Hall p Hp) as [html He]. exists html. split; [done|].
    apply list_elem_of_lookup in Hp as [i Hi].
    apply (Hr i). apply editor_at_Some. eauto.
  - intros Hf. rewrite Forall_fmap, Forall_forall in Hf. split.
    + intros p Hp. destruct (Hf p Hp) as (html & He & _). simpl in He. by rewrite He.
    + intros i html (p & Hp & He)%editor_at_Some.
      destruct (Hf p) as (html' & He' & Hr); [by eapply list_elem_of_lookup_2|].
      simpl in He'. congruence.
Qed.





(** Nothing is lost: the first list is what remains of the second when
    some of its placeholder breaks are taken out. *)
Lemma padded_sublist l l' : padded l l' -> l `sublist_of` l'.
Proof. induction 1; by constructor. Qed.

Section Conservation.

Context `{Surface} (faithful : node -> Prop) `{!Faithful faithful}.

Lemma faithful_blocks l : Forall faithful l -> Forall (fun n => is_block n = true) l.
Proof. intros Hl. eapply Forall_impl; [done|]. apply faithful_block. Qed.





Lemma nodes_of_app R1 R2 : nodes_of (R1 ++ R2) = nodes_of R1 ++ nodes_of R2.
Proof. unfold nodes_of. by rewrite fmap_app, concat_app. Qed.




Lemma first_region_ok st first :
  Forall (region_ok faithful) (regions st) ->
  head (pages st) = Some first -> is_Some (editor first).
Proof.
  intros Hwf Hh. destruct (pages st) as [|p ps] eqn:E; [done|]. simpl in Hh. simplify_eq.
  unfold regions in Hwf. rewrite E in Hwf. simpl in Hwf.
  apply Forall_cons in Hwf as ((h' & -> & _) & _). done.
Qed.




End Conservation.

(** ** The flat surface and the scenarios *)

Lemma Flat_parse_known l : Forall Flat.known l -> Flat.parse (innerHTML l) = l.
Proof.
  induction 1 as [|n r Hn _ IH]; [done|].
  unfold Flat.known in Hn.
  repeat (apply elem_of_cons in Hn as [->|Hn]); [..|by apply elem_of_nil in Hn].
  - change (Flat.parse (innerHTML (Flat.p3 :: r))) with (Flat.p3 :: Flat.parse (innerHTML r)).
    by rewrite IH.
  - change (Flat.parse (innerHTML (Flat.p4 :: r))) with (Flat.p4 :: Flat.parse (innerHTML r)).
    by rewrite IH.
  - change (Flat.parse (innerHTML (Flat.p5 :: r))) with (Flat.p5 :: Flat.parse (innerHTML r)).
    by rewrite IH.
  - change (Flat.parse (innerHTML (Flat.br :: r))) with (Flat.br :: Flat.parse (innerHTML r)).
    by rewrite IH.
Qed.

Lemma Flat_faithful : @Faithful Flat.surface Flat.known.
Proof.
  split.
  - apply Flat_parse_known.
  - intros n Hn. unfold Flat.known in Hn.
    repeat (apply elem_of_cons in Hn as [->|Hn]); [done..|by apply elem_of_nil in Hn].
  - exists 20. unfold Flat.known. change (Element placeholder 20) with Flat.br. set_solver.
Qed.

Lemma Flat_three_well_formed : well_formed Flat.known Flat.three.
Proof.
  split.
  - intros p Hp. apply list_elem_of_singleton in Hp as ->. by eexists.
  - intros [|i] html He; [|done]. injection He as <-.
    exists [Flat.p3; Flat.p4; Flat.p5]. split; [|done].
    unfold Flat.known. repeat (constructor; [set_solver|]). constructor.
Qed.



Lemma checkPageOverflow_stable_witness :
  let st := Flat.one_page "<p>abc</p><p>abcd</p>" in
  exists st',
    @checkPageOverflow Flat.surface 1 0 st = Done st' /\
    length (pages st') = length (pages st) /\
    forall j, editor_at st' j = editor_at st j.
Proof.
  intros st.
  apply (@checkPageOverflow_stable Flat.surface 0 0 st "<p>abc</p><p>abcd</p>" 1000).
  - vm_compute. reflexivity.
  - vm_compute. reflexivity.
  - vm_compute. discriminate.
Defined.


Lemma backspace_removes_empty_page_witness :
  let st := Flat.second_page_empty in
  let st' := onKeydown "Backspace" st in
  pages st' = imap renumber (delete 1%nat (pages st)) /\
  numbered (pages st') /\
  editor_at st' 0 = editor_at st 0 /\
  activeElement st' = Some (1 - 1)%nat /\
  selectedEditor st' = Some (1 - 1)%nat /\
  totalPages st' = length (pages st') /\
  forall (host : Host) caret,
    caret_after_keydown "Backspace" st caret
    = Some ((1 - 1)%nat, caret_on_focus "<p>abc</p>").
Proof.
  intros st st'.
  destruct (backspace_removes_empty_page st 1 "<br>")
    as [_ Hremove]; [vm_compute; reflexivity..|].
  apply (Hremove "<p>abc</p>"); [lia|vm_compute; reflexivity].
Defined.

(** C6 fails as stated: the listener focuses the region of the previous
    page and places no caret; on a host that puts the caret at the start
    of a region taking the focus, the caret is before the paragraph of
    the previous region and not at its end. *)
Lemma backspace_does_not_move_the_caret_to_the_end :
  let st := Flat.second_page_empty in
  editor_at st 0 = Some "<p>abc</p>" /\
  @childNodes Flat.surface "<p>abc</p>" = [Flat.p3] /\
  activeElement (onKeydown "Backspace" st) = Some 0%nat /\
  @caret_after_keydown Flat.caret_at_start "Backspace" st (Some (1, 0)%nat)
    = Some (0, 0)%nat /\
  @caret_after_keydown Flat.caret_at_start "Backspace" st (Some (1, 0)%nat)
    <> Some (0%nat, length (@childNodes Flat.surface "<p>abc</p>")).
Proof.
  intros st. repeat split; try (vm_compute; reflexivity).
  vm_compute. discriminate.
Qed.



Lemma Flat_three_focusable : regions_focusable Flat.three.
Proof.
  intros [|i] html He; [|done]. vm_compute in He. by injection He as <-.
Qed.

Lemma placeholder_kept_by_the_splitter_witness :
  (exists st',
     @checkPageOverflow Flat.surface 3 0 Flat.three = Done st' /\
     regions st' = [Some "<p>abc</p><p>abcd</p>"; Some "<p>abcde</p>"] /\
     regions_focusable st') /\
  editor_at (resetDocument Flat.three) 0 = Some "".
Proof.
  destruct (@placeholder_kept_by_the_splitter Flat.surface Flat.three
              (Page (Some "<p>abc</p><p>abcd</p><p>abcde</p>") (Some 1%nat) true))
    as (_ & _ & Hcheck & Hreset & _).
  - vm_compute. reflexivity.
  - by eexists.
  - exact Flat_three_focusable.
  - split; [|exact Hreset].
    eexists. split; [vm_compute; reflexivity|].
    split; [vm_compute; reflexivity|].
    apply (Hcheck 3%nat 0%nat). vm_compute. reflexivity.
Defined.

(** C8 fails as stated: after resetDocument the region of the first page
    is empty and holds no placeholder; so does the region of the page
    addPage appends. *)
Lemma resetDocument_leaves_an_empty_region :
  regions_focusable Flat.three /\
  ~ regions_focusable (resetDocument Flat.three) /\
  ~ regions_focusable (state_of (addPage Flat.three)).
Proof.
  split; [exact Flat_three_focusable|split].
  - intros Hf. specialize (Hf 0%nat "").
    assert (blank "" = false) as Hb; [apply Hf; vm_compute; reflexivity|discriminate].
  - intros Hf. specialize (Hf 1%nat "").
    assert (blank "" = false) as Hb; [apply Hf; vm_compute; reflexivity|discriminate].
Qed.


Lemma only_the_latest_check_runs_witness :
  let st := @run Flat.surface 3
              [Typed 0 "<p>abc</p>"; Mutation 0; Typed 0 "<p>abcd</p>"]
              (Flat.one_page "") in
  (forall id t, timers st !! id = Some t -> typingTimer st = Some id) /\
  (forall id, typingTimer st <> Some id -> @timeout_elapses Flat.surface 3 id st = Done st) /\
  (forall r ms,
     timers (schedule r ms st) = {[ next_timer st := Task r ms ]} /\
     typingTimer (schedule r ms st) = Some (next_timer st)).
Proof.
  apply (@only_the_latest_check_runs Flat.surface 3
           [Typed 0 "<p>abc</p>"; Mutation 0; Typed 0 "<p>abcd</p>"]
           (Flat.one_page "")).
  vm_compute. reflexivity.
Defined.

(** A paragraph of 13 lines on pages of 1000: the check leaves a break
    on the first page, takes the paragraph to a second page and checks
    that one; no call returns. *)
Lemma oversized_block_never_comes_to_rest_witness :
  let html := "<p>abcdeabcdeabc</p>" in
  let st := Flat.one_page html in
  (forall depth,
     let n := length (pages st) in
     exists st2,
       addPage (set_editor 0 placeholder (emit detected st)) = Done st2 /\
       let st3 := set_editor n html st2 in
       @checkPageOverflow Flat.surface (S depth) 0 st =
         (let! st' := @checkPageOverflow Flat.surface depth n st3 in Done (updateUI st')) /\
       editor_at st3 0 = Some placeholder /\
       pageHeight st3 = Num 1000 /\
       editor_at st3 n = Some html /\
       S n = length (pages st3) /\
       (forall j, is_Some (editor_at st3 j) <-> (j < length (pages st3))%nat)) /\
  (forall depth st', @checkPageOverflow Flat.surface depth 0 st <> Done st').
Proof.
  intros html st.
  apply (@oversized_block_never_comes_to_rest Flat.surface
           html html 1300 1000 [] 0%nat st).
  - vm_compute. reflexivity.
  - vm_compute. reflexivity.
  - vm_compute. reflexivity.
  - lia.
  - vm_compute. reflexivity.
  - vm_compute. discriminate.
  - vm_compute. reflexivity.
  - vm_compute. reflexivity.
  - vm_compute. reflexivity.
  - intros [|j]; simpl.
    + split; [lia|by eexists].
    + split; [by intros [? ?]|lia].
Defined.

(** ** The list of recent files (main.js) *)

Lemma indexOf_None x l : Main.indexOf x l = None <-> x ∉ l.
Proof.
  induction l as [|y r IH]; simpl.
  - split; [intros _; apply not_elem_of_nil|done].
  - destruct (decide (y = x)) as [->|Hne].
    + split; [done|]. intros Hx. exfalso. apply Hx. by left.
    + rewrite fmap_None, IH, not_elem_of_cons. split; [by intros ?; split|by intros [_ ?]].
Qed.

Lemma filter_ne_id (x : string) (l : list string) :
  x ∉ l -> filter (fun y => y <> x) l = l.
Proof.
  induction l as [|y r IH]; [done|].
  rewrite not_elem_of_cons. intros [Hne Hr].
  rewrite filter_cons_True by congruence. by rewrite IH.
Qed.

(** Under [NoDup], removing the first occurrence removes every occurrence. *)
Lemma indexOf_delete x (l : list string) index :
  NoDup l -> Main.indexOf x l = Some index ->
  delete index l = filter (fun y => y <> x) l.
Proof.
  revert index. induction l as [|y r IH]; intros index Hnd; simpl; [done|].
  apply NoDup_cons in Hnd as [Hy Hr].
  destruct (decide (y = x)) as [->|Hne].
  - intros [= <-]. simpl. rewrite filter_cons_False by (intros H; by apply H).
    by rewrite filter_ne_id.
  - destruct (Main.indexOf x r) as [j|] eqn:E; simpl; [|done].
    intros [= <-]. simpl. rewrite filter_cons_True by done.
    by rewrite (IH j).
Qed.

Lemma removed_filter x (l : list string) :
  NoDup l ->
  match Main.indexOf x l with Some index => delete index l | None => l end
  = filter (fun y => y <> x) l.
Proof.
  intros Hnd. destruct (Main.indexOf x l) as [i|] eqn:E.
  - by apply indexOf_delete.
  - symmetry. apply filter_ne_id. by apply indexOf_None.
Qed.

Lemma addToRecentFiles_filter filePath recent :
  NoDup recent -> (length recent <= Main.MAX_RECENT_FILES)%nat ->
  Main.addToRecentFiles filePath recent
  = take Main.MAX_RECENT_FILES (filePath :: filter (fun y => y <> filePath) recent).
Proof.
  intros Hnd Hlen. unfold Main.addToRecentFiles. rewrite removed_filter by done.
  set (rest := filter _ recent).
  assert (length rest <= length recent)%nat as Hrest by apply length_filter.
  unfold Main.MAX_RECENT_FILES in *.
  case_decide as Hfull.
  - unfold Main.pop. f_equal. simpl in *. lia.
  - symmetry. apply take_ge. simpl in *. lia.
Qed.

Lemma NoDup_delete (l : list string) i : NoDup l -> NoDup (delete i l).
Proof. intros Hnd. exact (sublist_NoDup _ _ Hnd (sublist_delete l i)). Qed.

Lemma addToRecentFiles_invariant filePath recent :
  NoDup recent -> (length recent <= Main.MAX_RECENT_FILES)%nat ->
  NoDup (Main.addToRecentFiles filePath recent) /\
  (length (Main.addToRecentFiles filePath recent) <= Main.MAX_RECENT_FILES)%nat.
Proof.
  intros Hnd Hlen. rewrite addToRecentFiles_filter by done. split.
  - refine (sublist_NoDup _ _ _ (sublist_take _ _)). apply NoDup_cons. split.
    + rewrite list_elem_of_filter. by intros [? _].
    + by apply NoDup_filter.
  - rewrite length_take. lia.
Qed.

Lemma handle_recent_ok m e : recent_ok m -> recent_ok (Main.handle m e).
Proof.
  intros [Hnd Hlen]. destruct e as [f d r|c r|f w| |b]; simpl.
  - unfold Main.openSpecificFile. destruct d; simpl.
    + destruct r; [|done]. by apply addToRecentFiles_invariant.
    + destruct (Main.indexOf f (Main.recentFiles m)) as [i|]; [|done].
      split; simpl; [by apply NoDup_delete|].
      pose proof (sublist_length _ _ (sublist_delete (Main.recentFiles m) i)). lia.
  - unfold Main.openFile. destruct c; [|done]. destruct r; [|done].
    by apply addToRecentFiles_invariant.
  - unfold Main.saveFile. destruct w; [|done]. by apply addToRecentFiles_invariant.
  - split; simpl; [apply NoDup_nil_2|unfold Main.MAX_RECENT_FILES; lia].
  - done.
Qed.

Lemma run_recent_ok trace m : recent_ok m -> recent_ok (Main.run trace m).
Proof.
  revert m. induction trace as [|e trace IH]; intros m Hm; [done|].
  apply IH. by apply handle_recent_ok.
Qed.

Lemma initial_recent_ok : recent_ok Main.initial.
Proof. split; simpl; [apply NoDup_nil_2|unfold Main.MAX_RECENT_FILES; lia]. Qed.

(** X1. Whatever the main process has done since it started (files opened
    from the dialog or from the menu, found or missing, readable or not;
    saves that succeeded or failed; the list cleared), the recent files are
    pairwise distinct and at most [MAX_RECENT_FILES]. *)
Theorem recent_files_bounded_and_distinct trace :
  NoDup (Main.recentFiles (Main.run trace Main.initial)) /\
  (length (Main.recentFiles (Main.run trace Main.initial)) <= Main.MAX_RECENT_FILES)%nat.
Proof. apply run_recent_ok, initial_recent_ok. Qed.

(** X2. On a list without duplicates and within the bound,
    [addToRecentFiles] puts the file first, keeps the other files in their
    order and drops what does not fit in the first [MAX_RECENT_FILES]
    places. *)
Theorem addToRecentFiles_most_recent_first filePath recent :
  NoDup recent -> (length recent <= Main.MAX_RECENT_FILES)%nat ->
  Main.addToRecentFiles filePath recent
  = take Main.MAX_RECENT_FILES (filePath :: filter (fun y => y <> filePath) recent).
Proof.
  intros Hnd Hlen. unfold Main.addToRecentFiles.
  destruct (Main.indexOf filePath recent) as [index|] eqn:E.
  - rewrite (indexOf_delete filePath recent index Hnd E).
    pose proof (length_filter (fun y => y <> filePath) recent) as Hrest.
    unfold Main.MAX_RECENT_FILES in *. case_decide as Hfull.
    + unfold Main.pop. f_equal. simpl in *. lia.
    + symmetry. apply take_ge. simpl in *. lia.
  - apply indexOf_None in E. rewrite (filter_ne_id filePath recent E).
    unfold Main.MAX_RECENT_FILES in *. case_decide as Hfull.
    + unfold Main.pop. f_equal. simpl in *. lia.
    + symmetry. apply take_ge. simpl in *. lia.
Qed.

Lemma addToRecentFiles_most_recent_first_witness :
  Main.addToRecentFiles "c" ["a"; "b"; "c"; "d"; "e"]
  = take Main.MAX_RECENT_FILES ("c" :: filter (fun y => y <> "c") ["a"; "b"; "c"; "d"; "e"]).
Proof.
  apply addToRecentFiles_most_recent_first.
  - by apply (bool_decide_unpack _).
  - simpl. unfold Main.MAX_RECENT_FILES. lia.
Defined.

(** X3. Opening a file that is no longer on disk removes every trace of it
    from the recent files, keeps the others in order and leaves the current
    path and the modification flag alone. *)
Theorem missing_recent_file_is_forgotten trace filePath read :
  let m := Main.run trace Main.initial in
  let m' := Main.openSpecificFile filePath false read m in
  Main.recentFiles m' = filter (fun y => y <> filePath) (Main.recentFiles m) /\
  Main.currentFilePath m' = Main.currentFilePath m /\
  Main.documentIsModified m' = Main.documentIsModified m.
Proof.
  intros m m'. destruct (run_recent_ok trace _ initial_recent_ok) as [Hnd _].
  fold m in Hnd. subst m'. unfold Main.openSpecificFile. simpl.
  rewrite <- (removed_filter filePath (Main.recentFiles m)) by done.
  by destruct (Main.indexOf filePath (Main.recentFiles m)).
Qed.

(** ** The splitter and the page height, further *)


Lemma total_height_cons n l : total_height (n :: l) = block_height n + total_height l.
Proof. reflexivity. Qed.

Lemma find_split_sound l : forall i c capacity k,
  find_split l i (Num c) (Num capacity) = Some k ->
  exists j, k = (i + j)%nat /\ (j < length l)%nat /\
    Forall (fun n => is_element n = true) (take (S j) l) /\
    (forall j', (j' < j)%nat -> c + total_height (take (S j') l) <= capacity) /\
    capacity < c + total_height (take (S j) l).
Proof.
  induction l as [|n r IH]; intros i c capacity k; [done|].
  destruct n as [html h|t]; cbn [find_split offsetHeight js_add js_gt].
  - destruct (capacity <? c + h) eqn:E.
    + intros [= <-]. exists O. rewrite Nat.add_0_r.
      split; [done|]. split; [simpl; lia|]. split; [by repeat constructor|].
      split; [intros; lia|]. apply Z.ltb_lt in E.
      change (take 1 (Element html h :: r)) with [Element html h].
      unfold total_height. simpl. lia.
    + intros (j & -> & Hj & Hall & Hbefore & Hat)%IH. exists (S j).
      apply Z.ltb_ge in E.
      split; [lia|]. split; [simpl; lia|]. split; [by constructor|]. split.
      * intros [|j'] Hj'.
        -- change (take 1 (Element html h :: r)) with [Element html h].
           unfold total_height. simpl. lia.
        -- specialize (Hbefore j' ltac:(lia)).
           change (take (S (S j')) (Element html h :: r)) with (Element html h :: take (S j') r).
           rewrite total_height_cons. simpl. lia.
      * change (take (S (S j)) (Element html h :: r)) with (Element html h :: take (S j) r).
        rewrite total_height_cons. simpl. lia.
  - by rewrite find_split_NaN.
Qed.



Lemma total_height_app l1 l2 : total_height (l1 ++ l2) = total_height l1 + total_height l2.
Proof.
  induction l1 as [|n l1 IH]; [done|].
  change ((n :: l1) ++ l2) with (n :: (l1 ++ l2)). rewrite !total_height_cons, IH. lia.
Qed.

Lemma total_height_nonneg l : Forall measured l -> 0 <= total_height l.
Proof.
  induction 1 as [|n l [_ Hn] _ IH]; [done|]. rewrite total_height_cons. lia.
Qed.

(** Measured nodes whose heights add up to no more than what is left of
    the capacity are passed over by the loop. *)
Lemma find_split_passes before : forall rest i c capacity,
  Forall measured before ->
  c + total_height before <= capacity ->
  find_split (before ++ rest) i (Num c) (Num capacity)
  = find_split rest (i + length before) (Num (c + total_height before)) (Num capacity).
Proof.
  induction before as [|n l IH]; intros rest i c capacity Hall Hfit.
  - simpl. rewrite Nat.add_0_r. do 2 f_equal. unfold total_height. simpl. lia.
  - inversion Hall as [|? ? [Hn Hh] Hl]; subst.
    destruct n as [html h|t]; [|done].
    rewrite total_height_cons in Hfit. simpl in Hh, Hfit.
    pose proof (total_height_nonneg l Hl).
    cbn [app find_split offsetHeight js_add js_gt].
    assert ((capacity <? c + h) = false) as -> by (apply Z.ltb_ge; lia).
    rewrite IH by (done || lia). rewrite total_height_cons. simpl.
    replace (i + S (length l))%nat with (S (i + length l)) by lia.
    by replace (c + (h + total_height l)) with (c + h + total_height l) by lia.
Qed.

Section SplitterSoundness.

Context `{Surface}.

(** X4. When the splitter returns overflow, the split is at the first
    node whose height takes the running total over the capacity: the nodes
    up to it are elements, every prefix of the nodes kept fits the
    capacity, the overflow is the markup of every node from it on, one
    after the other in their order, and the region keeps the markup of
    the nodes before it, in their order (the placeholder if that is
    blank). *)
Theorem extractOverflowContent_retained_fits html capacity retained overflow :
  extractOverflowContent html (Num capacity) = (retained, overflow) ->
  overflow <> "" ->
  exists k, (k < length (childNodes html))%nat /\
    Forall (fun n => is_element n = true) (take (S k) (childNodes html)) /\
    (forall j, (j < k)%nat -> total_height (take (S j) (childNodes html)) <= capacity) /\
    capacity < total_height (take (S k) (childNodes html)) /\
    overflow = String.concat "" (outerHTML_or_textContent <$> drop k (childNodes html)) /\
    retained =
      (let kept := String.concat "" (outerHTML_or_textContent <$> take k (childNodes html)) in
       if blank kept then placeholder else kept).
Proof.
  unfold extractOverflowContent.
  destruct (find_split _ _ _ _) as [k|] eqn:Hk; [|by intros [= _ <-]].
  intros [= <- <-] _.
  apply find_split_sound in Hk as (j & -> & Hj & Hall & Hbefore & Hat).
  exists j. cbv zeta. rewrite collect_concat.
  assert (Forall (fun n => is_element n = true) (take j (childNodes html))) as Hel.
  { replace (take j (childNodes html)) with (take j (take (S j) (childNodes html)))
      by (rewrite take_take; f_equal; lia).
    by apply Forall_take. }
  rewrite <- (innerHTML_concat (take j (childNodes html))) by done.
  by repeat split.
Qed.

(** X5. A region whose nodes are all elements with heights that add up to
    no more than the capacity is left as it is, and the overflow is empty. *)
Theorem extractOverflowContent_content_that_fits html capacity :
  Forall measured (childNodes html) ->
  total_height (childNodes html) <= capacity ->
  extractOverflowContent html (Num capacity) = (html, "").
Proof.
  intros Hall Hfit. unfold extractOverflowContent.
  pose proof (find_split_passes (childNodes html) [] 0 0 capacity Hall) as Hp.
  rewrite app_nil_r in Hp. by rewrite Hp by lia.
Qed.

Lemma find_split_text before t rest capacity :
  Forall measured before ->
  total_height before <= capacity ->
  find_split (before ++ Text t :: rest) 0 (Num 0) (Num capacity) = None.
Proof.
  intros Hall Hfit. rewrite find_split_passes by (lia || done).
  cbn [find_split offsetHeight js_add js_gt]. apply find_split_NaN.
Qed.

Lemma find_split_NaN_capacity l : forall i c, find_split l i c NaN = None.
Proof.
  induction l as [|n r IH]; intros i c; [done|].
  cbn [find_split]. destruct (js_add c (offsetHeight n)); apply IH.
Qed.

Lemma extractOverflowContent_NaN html : extractOverflowContent html NaN = (html, "").
Proof. unfold extractOverflowContent. by rewrite find_split_NaN_capacity. Qed.

Theorem extractOverflowContent_stops_at_text html before t rest capacity :
  childNodes html = before ++ Text t :: rest ->
  Forall measured before ->
  total_height before <= capacity ->
  extractOverflowContent html (Num capacity) = (html, "").
Proof.
  intros E Hall Hfit. unfold extractOverflowContent.
  by rewrite E, find_split_text.
Qed.

Lemma regions_same_pages st st' : pages st' = pages st -> regions st' = regions st.
Proof. unfold regions. by intros ->. Qed.

Lemma regions_set_editor_same st i html :
  editor_at st i = Some html -> regions (set_editor i html st) = regions st.
Proof.
  intros He. rewrite (regions_set_editor st i html html He).
  apply list_insert_id. by apply regions_lookup.
Qed.

(** The overflow check of a region the splitter leaves alone *)
Lemma checkPageOverflow_unsplit depth i st html :
  editor_at st i = Some html ->
  extractOverflowContent html (pageHeight st) = (html, "") ->
  exists st', checkPageOverflow (S depth) i st = Done st' /\
    regions st' = regions st /\ pageHeight st' = pageHeight st.
Proof.
  intros He Hx. cbn [checkPageOverflow]. rewrite He.
  destruct (bool_decide (scrollHeight html = 0) && negb (blank (innerText html))).
  { eexists. split; [reflexivity|]. split; [|unfold schedule, setTimeout, clearTimeout; simpl; by case_match].
    apply regions_same_pages. by rewrite pages_schedule. }
  destruct (js_gt _ _).
  - change (pageHeight (emit detected st)) with (pageHeight st). rewrite Hx.
    change (negb (blank "")) with false. cbn [bind].
    eexists. split; [reflexivity|]. split.
    + rewrite regions_updateUI. by apply (regions_set_editor_same (emit detected st)).
    + reflexivity.
  - eexists. split; [reflexivity|]. split; [apply regions_updateUI|done].
Qed.

(** X6. A text node has no height, and the total it enters stops
    comparing: when the nodes before the first text node of a region fit
    the page, the overflow check returns without changing any region,
    whatever comes after the text node and however high the region is. *)
Theorem bare_text_is_never_moved depth i st html before t rest capacity :
  editor_at st i = Some html ->
  pageHeight st = Num capacity ->
  childNodes html = before ++ Text t :: rest ->
  Forall measured before ->
  total_height before <= capacity ->
  exists st', checkPageOverflow (S depth) i st = Done st' /\ regions st' = regions st.
Proof.
  intros He Hp E Hall Hfit.
  destruct (checkPageOverflow_unsplit depth i st html He) as (st' & Hst' & Hr & _).
  - rewrite Hp. by eapply extractOverflowContent_stops_at_text.
  - by exists st'.
Qed.

End SplitterSoundness.


(** X7. After calculatePageDimensions the page height is never zero or
    negative: it is positive, or it is NaN, which it is exactly when
    the lengths read from the page do not give a number (the fallback
    is not used then). *)
Theorem calculatePageDimensions_positive_or_NaN m st :
  let st' := calculatePageDimensions (Some m) st in
  (pageHeight st' = NaN <-> usable_height m = NaN) /\
  (forall h, pageHeight st' = Num h -> 0 < h).
Proof.
  unfold calculatePageDimensions.
  change (pageHeight (set_pageHeight (usable_height m) st)) with (usable_height m).
  destruct (usable_height m) as [u|]; cbn [js_le].
  - destruct (u <=? 0) eqn:E.
    + split; [done|]. intros h [= <-]. done.
    + apply Z.leb_gt in E. split; [done|]. by intros h [= <-].
  - split; [done|]. by intros h.
Qed.

Section PageHeight.

Context `{Surface}.

Lemma checkPageOverflow_NaN depth i st :
  pageHeight st = NaN ->
  exists st', checkPageOverflow (S depth) i st = Done st' /\
    regions st' = regions st /\ pageHeight st' = NaN.
Proof.
  intros Hp. destruct (editor_at st i) as [html|] eqn:He.
  - destruct (checkPageOverflow_unsplit depth i st html He) as (st' & ? & ? & Hp').
    + rewrite Hp. apply extractOverflowContent_NaN.
    + exists st'. by rewrite Hp' .
  - exists st. cbn [checkPageOverflow]. by rewrite He.
Qed.

Lemma checkAll_NaN depth l : forall st,
  pageHeight st = NaN ->
  exists st',
    foldl (fun r i => let! st' := r in checkPageOverflow (S depth) i st') (Done st) l
    = Done st' /\ regions st' = regions st /\ pageHeight st' = NaN.
Proof.
  induction l as [|i l IH]; intros st Hp; [by exists st|].
  destruct (checkPageOverflow_NaN depth i st Hp) as (st1 & E1 & Hr1 & Hp1).
  destruct (IH st1 Hp1) as (st2 & E2 & Hr2 & Hp2).
  exists st2. cbn [foldl bind]. rewrite E1, E2. split; [done|]. split; [congruence|done].
Qed.

(** X8. When the lengths read on a resize do not give a number, the page
    height is NaN, and the check of all pages returns without changing
    any region: nothing is repaginated. *)
Theorem unparsable_metrics_disable_pagination depth m st :
  usable_height m = NaN ->
  exists st', handleResize (S depth) (Some m) st = Done st' /\
    regions st' = regions st /\ pageHeight st' = NaN.
Proof.
  intros Hm. unfold handleResize, checkAllPagesForOverflow.
  set (st0 := calculatePageDimensions (Some m) st).
  assert (pageHeight st0 = NaN) as Hp.
  { subst st0. unfold calculatePageDimensions.
    change (pageHeight (set_pageHeight (usable_height m) st)) with (usable_height m).
    by rewrite Hm. }
  destruct (checkAll_NaN depth (seq 0 (length (pages st0))) st0 Hp) as (st' & E & Hr & Hp').
  exists st'. split; [done|]. split; [|done]. rewrite Hr. subst st0.
  unfold calculatePageDimensions.
  change (pageHeight (set_pageHeight (usable_height m) st)) with (usable_height m).
  by rewrite Hm.
Qed.

End PageHeight.

(** ** Sessions *)









Lemma consistent_first st :
  consistent st -> exists first, head (pages st) = Some first /\ is_Some (editor first).
Proof.
  intros (Hne & Hall & _). destruct (pages st) as [|first ps]; [done|].
  exists first. split; [done|]. by inversion Hall as [|? ? [? _] _].
Qed.


Section ConsistentSteps.

Context `{Surface}.



End ConsistentSteps.




Section ConsistentSession.

Context `{Surface}.







End ConsistentSession.


Lemma documentModified_focus i st : documentModified (focus i st) = documentModified st.
Proof. unfold focus, updateCurrentPage. repeat (case_match; simpl); done. Qed.

Lemma documentModified_onKeydown key st :
  documentModified (onKeydown key st) = documentModified st.
Proof.
  unfold onKeydown.
  repeat (case_match; simpl; try done); by rewrite documentModified_focus.
Qed.

Lemma documentModified_calculatePageDimensions m st :
  documentModified (calculatePageDimensions m st) = documentModified st.
Proof. unfold calculatePageDimensions. repeat (case_match; simpl; try done). Qed.

Lemma documentModified_schedule i ms st :
  documentModified (schedule i ms st) = documentModified st.
Proof. unfold schedule, clearTimeout. by destruct (typingTimer st). Qed.

Lemma documentModified_saveDocumentToFile filePath reply st :
  reply <> Succeeded ->
  documentModified (saveDocumentToFile filePath reply st) = documentModified st.
Proof. by destruct reply. Qed.

Lemma documentModified_saveFileAs dialog reply st :
  reply <> Succeeded ->
  documentModified (saveFileAs dialog reply st) = documentModified st.
Proof.
  intros Hr. unfold saveFileAs. destruct dialog as [[p|]|]; try done.
  destruct (truthy _); [|done]. by apply documentModified_saveDocumentToFile.
Qed.

Section Marks.

Context `{Surface}.

Lemma perform_keeps_mark depth st a :
  clears a = false -> documentModified st = true ->
  documentModified (perform depth st a) = true.
Proof.
  intros Ha Hm. destruct a as [e|c|c r|d r|d r|r|p c|c m| ]; cbn [perform clears] in *; try done.
  - destruct e as [i html|i|id|m|key| |]; cbn [handle] in *; try done.
    + unfold handleEditorInput. by rewrite documentModified_schedule.
    + unfold onMutation. by rewrite documentModified_schedule.
    + unfold timeout_elapses. destruct (timers st !! id) as [t|]; [|done].
      by rewrite (steps_documentModified _ _ (checkPageOverflow_steps depth _ _)).
    + unfold handleResize.
      by rewrite (steps_documentModified _ _ (checkAllPagesForOverflow_steps depth _)),
        documentModified_calculatePageDimensions.
    + by rewrite documentModified_onKeydown.
    + destruct (addPage st) as [st'|e st'] eqn:E; simpl.
      * by destruct (addPage_inv _ _ E) as (first & _ & _ & -> & _).
      * by rewrite (addPage_Thrown _ _ _ E).
  - unfold saveFile. assert (r <> Succeeded) as Hr by (by destruct r).
    destruct (currentFilePath st) as [p|];
      [destruct (truthy _)|];
      by rewrite ?documentModified_saveDocumentToFile, ?documentModified_saveFileAs.
  - rewrite documentModified_saveFileAs; [done|by destruct r].
  - unfold exportPDF. by repeat case_match.
  - unfold changeZoom. destruct c; [|done].
    by rewrite (steps_documentModified _ _ (checkAllPagesForOverflow_steps depth _)),
      documentModified_calculatePageDimensions.
  - unfold destroy, clearTimeout. by destruct (typingTimer st).
Qed.

(** X11. Once the document is marked as modified it stays so whatever
    happens, until a save succeeds or the document is replaced (new,
    open, load): no overflow check, resize, zoom, page removal, page
    addition, failed or rejected save, export or destroy clears the mark. *)
Theorem edits_stay_marked depth actions : forall st,
  documentModified st = true ->
  Forall (fun a => clears a = false) actions ->
  documentModified (perform_all depth actions st) = true.
Proof.
  induction actions as [|a actions IH]; intros st Hm Hall; [done|].
  inversion Hall as [|? ? Ha Hrest]; subst.
  apply IH; [|done]. by apply perform_keeps_mark.
Qed.

Lemma one_pending_emit e st : one_pending st -> one_pending (emit e st).
Proof. by apply one_pending_same. Qed.

Lemma one_pending_set_editor i html st : one_pending st -> one_pending (set_editor i html st).
Proof. by apply one_pending_same. Qed.

Lemma one_pending_resetDocument st : one_pending st -> one_pending (resetDocument st).
Proof. apply one_pending_same; apply timers_resetDocument. Qed.

Lemma one_pending_calculatePageDimensions m st :
  one_pending st -> one_pending (calculatePageDimensions m st).
Proof. apply one_pending_same; apply timers_calculatePageDimensions. Qed.

Lemma one_pending_loadDocument depth filePath content st :
  one_pending st -> one_pending (state_of (loadDocument depth filePath content st)).
Proof.
  intros Hone. unfold loadDocument.
  set (st1 := resetDocument st).
  assert (one_pending st1) as H1 by by apply one_pending_resetDocument.
  set (st2 := match list_find _ (pages st1) with Some (i, _) => _ | None => st1 end).
  assert (one_pending st2) as H2.
  { subst st2. destruct (list_find _ (pages st1)) as [[i ?]|]; [|done].
    by apply one_pending_set_editor. }
  set (st4 := updateUI _).
  assert (one_pending st4) as H4 by by apply (one_pending_same st2).
  pose proof (steps_one_pending _ _ (checkAllPagesForOverflow_steps depth st4) H4) as H5.
  destruct (checkAllPagesForOverflow depth st4) as [st5|e st5]; simpl in *; [|done].
  by destruct filePath.
Qed.

Lemma one_pending_saveFileAs dialog reply st :
  one_pending st -> one_pending (saveFileAs dialog reply st).
Proof.
  intros Hc. unfold saveFileAs. destruct dialog as [[p|]|]; try done.
  destruct (truthy _); [|done]. by destruct reply.
Qed.

Lemma clearTimeout_one_pending st :
  one_pending st -> timers (clearTimeout (typingTimer st) st) = ∅.
Proof.
  intros Hone. apply map_eq. intros id. rewrite lookup_empty.
  unfold clearTimeout. destruct (typingTimer st) as [t|] eqn:Ht; simpl.
  - destruct (decide (id = t)) as [->|Hne]; [apply lookup_delete_eq|].
    rewrite lookup_delete_ne by done.
    destruct (timers st !! id) as [x|] eqn:E; [|done].
    apply Hone in E. congruence.
  - destruct (timers st !! id) as [x|] eqn:E; [|done].
    apply Hone in E. congruence.
Qed.

Lemma perform_one_pending depth st a : one_pending st -> one_pending (perform depth st a).
Proof.
  intros Hc. destruct a as [e|c|c r|d r|d r|r|p c|c m| ]; simpl.
  - by apply handle_one_pending.
  - unfold createNewDocument. destruct (_ && _); [done|]. by apply one_pending_resetDocument.
  - unfold openFile. destruct (_ && _); [done|].
    destruct r as [p c'| |].
    + pose proof (one_pending_loadDocument depth (Some p) (Some c') st Hc) as Hl.
      destruct (loadDocument _ _ _ _); simpl in Hl; [done|]. by apply one_pending_emit, one_pending_emit.
    + pose proof (one_pending_loadDocument depth None None st Hc) as Hl.
      destruct (loadDocument _ _ _ _); simpl in Hl; [done|]. by apply one_pending_emit, one_pending_emit.
    + by apply one_pending_emit, one_pending_emit.
  - unfold saveFile. destruct (currentFilePath st) as [p|]; [|by apply one_pending_saveFileAs].
    destruct (truthy _); [by destruct r|by apply one_pending_saveFileAs].
  - by apply one_pending_saveFileAs.
  - unfold exportPDF. repeat case_match; by repeat apply one_pending_emit.
  - unfold loadFromData. destruct (truthy c); [|done]. by apply one_pending_loadDocument.
  - unfold changeZoom. destruct c; [|done].
    eapply steps_one_pending; [apply checkAllPagesForOverflow_steps|].
    by apply one_pending_calculatePageDimensions.
  - unfold destroy. apply one_pending_emit. intros id t.
    by rewrite clearTimeout_one_pending.
Qed.

Lemma perform_all_one_pending depth actions : forall st,
  one_pending st -> one_pending (perform_all depth actions st).
Proof.
  induction actions as [|a actions IH]; intros st Hc; [done|].
  apply IH. by apply perform_one_pending.
Qed.

(** X12. After any session, destroy leaves no timeout pending: the one
    check that may be scheduled is cancelled. *)
Theorem destroy_cancels_the_pending_check depth actions st :
  one_pending st ->
  timers (destroy (perform_all depth actions st)) = ∅.
Proof.
  intros Hone. unfold destroy.
  change (timers (emit ?e ?s)) with (timers s).
  apply clearTimeout_one_pending. by apply perform_all_one_pending.
Qed.

End Marks.

(** ** Loading and saving *)


Lemma currentFilePath_focus i st : currentFilePath (focus i st) = currentFilePath st.
Proof. unfold focus, updateCurrentPage. repeat (case_match; simpl); done. Qed.

Lemma currentFilePath_addPage st st2 :
  addPage st = Done st2 -> currentFilePath st2 = currentFilePath st.
Proof.
  unfold addPage. destruct (pages st) as [|first ps]; [done|]. intros [= <-]. simpl.
  destruct (editor first); simpl; [|done]. by rewrite currentFilePath_focus.
Qed.

Lemma console_last e st : last (console (emit e st)) = Some e.
Proof. simpl. apply last_snoc. Qed.

Section Loading.

Context `{Surface}.

Lemma step_currentFilePath st st' : step st st' -> currentFilePath st' = currentFilePath st.
Proof.
  destruct 1 as [i html st ? ? ?|st|i r o st ? ?|i r o next st ? ? ?
                |i r o st st2 ? ? ? Hadd|i r o st st2 ? ? ? Hadd ?]; simpl; try done.
  - unfold schedule, clearTimeout. by destruct (typingTimer st).
  - by rewrite (currentFilePath_addPage _ _ Hadd).
  - by rewrite (currentFilePath_addPage _ _ Hadd).
Qed.

Lemma steps_currentFilePath st st' :
  rtc step st st' -> currentFilePath st' = currentFilePath st.
Proof.
  induction 1 as [|st st1 st2 Hs _ IH]; [done|].
  rewrite IH. by apply step_currentFilePath.
Qed.

(** loadDocument up to the overflow check: one page, holding the content *)
Lemma loadDocument_before_check depth filePath content st first :
  head (pages st) = Some first -> is_Some (editor first) ->
  exists st4,
    regions st4 = [Some (DOMString content)] /\
    documentModified st4 = false /\ currentFilePath st4 = filePath /\
    pageHeight st4 = pageHeight (resetDocument st) /\
    loadDocument depth filePath content st =
      (let! st5 := checkAllPagesForOverflow depth st4 in
       match filePath with
       | Some path => Done (emit (Toast ("Document loaded: " +:+ file_name path)) st5)
       | None => Thrown TypeError st5
       end).
Proof.
  intros Hh [html He]. unfold loadDocument.
  pose proof (pages_resetDocument st first Hh) as Hps.
  unfold set_innerHTML in Hps. rewrite He in Hps. cbn [imap] in Hps.
  rewrite Hps. cbn [list_find]. rewrite decide_True by (rewrite editor_renumber; by eexists).
  cbn [fmap option_fmap option_map prod_map fst snd].
  eexists. split; [|split; [|split; [|split; [|reflexivity]]]]; [|done..].
  rewrite regions_updateUI.
  change (regions (set_editor 0 (DOMString content) (resetDocument st)) = [Some (DOMString content)]).
  erewrite (regions_set_editor _ O "");
    [|unfold editor_at; rewrite Hps; simpl; by rewrite editor_renumber].
  unfold regions. rewrite Hps. simpl. done.
Qed.

Lemma extractOverflowContent_text_first html t rest maxHeight :
  childNodes html = Text t :: rest ->
  extractOverflowContent html maxHeight = (html, "").
Proof.
  intros E. unfold extractOverflowContent. rewrite E.
  cbn [find_split offsetHeight js_add js_gt]. by rewrite find_split_NaN.
Qed.

(** X13. The main process answers a cancelled Open dialog with an object
    that has no path and no content, and openFile loads it: unless the
    user declined the prompt for unsaved changes, the document is reset
    to one page whose region holds the text of the undefined content,
    the path is forgotten, the mark is cleared, and loadDocument throws
    at its last statement, so that the error toast is shown. *)
Theorem cancelled_open_dialog_discards_the_document depth confirmed read st first t rest :
  head (pages st) = Some first -> is_Some (editor first) ->
  documentModified st && negb confirmed = false ->
  childNodes "undefined" = Text t :: rest ->
  let st' := openFile (S depth) confirmed (open_reply_of None read) st in
  regions st' = [Some "undefined"] /\
  currentFilePath st' = None /\
  documentModified st' = false /\
  last (console st') = Some (Toast "Error opening file").
Proof.
  intros Hh Hfirst Hguard Hund st'. subst st'. unfold openFile. rewrite Hguard.
  cbn [open_reply_of].
  destruct (loadDocument_before_check (S depth) None None st first Hh Hfirst)
    as (st4 & Hr & Hm & Hp & _ & ->).
  unfold checkAllPagesForOverflow.
  assert (length (pages st4) = 1%nat) as ->.
  { apply (f_equal length) in Hr. unfold regions in Hr. by rewrite length_fmap in Hr. }
  cbn [seq foldl bind].
  assert (editor_at st4 0 = Some "undefined") as He.
  { apply regions_lookup. by rewrite Hr. }
  destruct (checkPageOverflow_unsplit depth 0 st4 "undefined" He) as (st5 & E5 & Hr5 & _).
  { by eapply extractOverflowContent_text_first. }
  pose proof (checkPageOverflow_steps (S depth) 0 st4) as Hs. rewrite E5 in Hs. simpl in Hs.
  rewrite E5. cbn [bind]. split; [|split; [|split]].
  - change (regions st5 = [Some "undefined"]). by rewrite Hr5.
  - change (currentFilePath st5 = None). by rewrite (steps_currentFilePath _ _ Hs).
  - change (documentModified st5 = false). by rewrite (steps_documentModified _ _ Hs).
  - apply console_last.
Qed.


End Loading.

Section LoadedContent.

Context `{Surface} (faithful : node -> Prop) `{!Faithful faithful}.






End LoadedContent.

(** ** Words, names and patterns *)




Lemma split_spaces_length s : forall cur p,
  (length (split_spaces s cur p) + (if ends_in_space p s then 0 else 1)
   = count_words p s + (if p then 1 else 2))%nat.
Proof.
  induction s as [|c r IH]; intros cur p; simpl.
  - by destruct p.
  - destruct (is_space c).
    + destruct p; simpl; rewrite ?IH; [done|]. specialize (IH "" true). simpl in IH. lia.
    + specialize (IH (cur +:+ String c "") false). simpl in IH. destruct p; lia.
Qed.

Lemma count_words_all_space s p : all_space s = true -> count_words p s = O.
Proof.
  revert p. induction s as [|c r IH]; intros p; simpl; [done|].
  destruct (is_space c); simpl; [apply IH|done].
Qed.

Lemma count_words_trimStart s : count_words true (trimStart s) = count_words true s.
Proof.
  induction s as [|c r IH]; simpl; [done|].
  destruct (is_space c) eqn:E; [done|]. simpl. by rewrite E.
Qed.

Lemma count_words_trimEnd s : forall p, count_words p (trimEnd s) = count_words p s.
Proof.
  induction s as [|c r IH]; intros p; [done|].
  cbn [trimEnd]. destruct (trimEnd r) as [|c' r'] eqn:E.
  - cbn [count_words]. destruct (is_space c) eqn:Ec.
    + by rewrite <- IH.
    + cbn [count_words]. rewrite Ec. by rewrite <- IH.
  - cbn [count_words]. destruct (is_space c); by rewrite <- IH.
Qed.

Lemma count_words_trim s : count_words true (trim s) = count_words true s.
Proof. unfold trim. by rewrite count_words_trimEnd, count_words_trimStart. Qed.

Lemma ends_in_space_trimEnd s : ends_in_space false (trimEnd s) = false.
Proof.
  induction s as [|c r IH]; [done|].
  cbn [trimEnd]. destruct (trimEnd r) as [|c' r'] eqn:E.
  - by destruct (is_space c) eqn:Ec; simpl; rewrite ?Ec.
  - exact IH.
Qed.

Lemma trim_head s :
  trim s <> "" -> exists c r, trim s = String c r /\ is_space c = false.
Proof.
  unfold trim. intros Hne.
  destruct (all_space s) eqn:Ha.
  { by rewrite (trimStart_all_space s Ha) in Hne. }
  destruct (trimStart_not_all_space s Ha) as (c & r & -> & Hc).
  cbn [trimEnd]. destruct (trimEnd r); [rewrite Hc|]; eauto.
Qed.

Lemma split_trimmed s :
  trim s <> "" -> length (split_spaces (trim s) "" false) = count_words true s.
Proof.
  intros Hne. rewrite <- count_words_trim.
  pose proof (split_spaces_length (trim s) "" false) as Hl.
  unfold trim at 2 in Hl. rewrite ends_in_space_trimEnd in Hl.
  destruct (trim_head s Hne) as (c & r & E & Hc). rewrite E in *.
  cbn [count_words] in *. rewrite Hc in *. lia.
Qed.


(** X17. The number the status bar shows is the number of words of the
    text: of the maximal runs of characters that are not white space. *)
Theorem words_counts_the_words allText : words allText = count_words true allText.
Proof.
  unfold words. destruct (decide (trim allText = "")) as [Hb|Hb].
  - rewrite bool_decide_eq_true_2 by done. symmetry. apply count_words_all_space.
    rewrite <- blank_all_space. unfold blank. by apply bool_decide_eq_true_2.
  - rewrite bool_decide_eq_false_2 by done. by apply split_trimmed.
Qed.

(** X18. The wordCount of getDocumentData is the number of words, except
    that it is 1 and not 0 for a text that is blank: there it differs
    from the number the status bar shows, everywhere else they agree. *)
Theorem wordCount_of_a_blank_text allText :
  wordCount allText = Nat.max 1 (count_words true allText) /\
  wordCount allText = (if blank allText then 1%nat else words allText).
Proof.
  split.
  - unfold wordCount. destruct (decide (trim allText = "")) as [Hb|Hb].
    + rewrite Hb. rewrite count_words_all_space; [done|].
      rewrite <- blank_all_space. unfold blank. by apply bool_decide_eq_true_2.
    + rewrite split_trimmed by done. rewrite <- count_words_trim.
      destruct (trim_head allText Hb) as (c & r & -> & Hc).
      cbn [count_words]. rewrite Hc. lia.
  - unfold wordCount, words, blank. case_bool_decide as Hb; [|done]. by rewrite Hb.
Qed.

(** The no-break space separates words and makes a text blank, as the
    space does. *)
Example no_break_space_is_white_space :
  words (String "a" (String "160" (String "b" ""))) = 2%nat /\
  wordCount (String "a" (String "160" (String "b" ""))) = 2%nat /\
  count_words true (String "a" (String "160" (String "b" ""))) = 2%nat /\
  blank (String "160" "") = true /\
  words (String "160" "") = 0%nat /\
  wordCount (String "160" "") = 1%nat.
Proof. repeat split; vm_compute; reflexivity. Qed.


Section AllText.

Context `{Surface}.



End AllText.




Lemma split_chars_last s : forall cur,
  has_separator cur = false ->
  exists dir f,
    last (split_chars is_separator s cur) = Some f /\
    has_separator f = false /\
    cur +:+ s = dir +:+ f /\
    (dir = "" \/ exists d c, dir = d +:+ String c "" /\ is_separator c = true).
Proof.
  induction s as [|c r IH]; intros cur Hcur.
  - exists "", cur. simpl. split; [done|]. split; [done|]. split; [|by left].
    clear. induction cur; simpl; [done|by f_equal].
  - cbn [split_chars]. destruct (is_separator c) eqn:Ec.
    + destruct (IH "" eq_refl) as (dir & f & Hl & Hf & E & Hd).
      exists (cur +:+ String c dir), f. rewrite last_cons, Hl.
      split; [done|]. split; [done|]. simpl in E. subst r. split.
      * by rewrite app_assoc_s.
      * right. destruct Hd as [->|(d & c' & -> & Hc')].
        -- by exists cur, c.
        -- exists (cur +:+ String c d), c'. split; [|done].
           by rewrite app_assoc_s.
    + destruct (IH (cur +:+ String c "")) as (dir & f & Hl & Hf & E & Hd).
      { clear -Hcur Ec. induction cur as [|x cur IH]; simpl in *; [by rewrite Ec|].
        apply orb_false_iff in Hcur as [-> Hcur]. simpl. by apply IH. }
      exists dir, f. split; [done|]. split; [done|]. split; [|done].
      rewrite <- E. by rewrite app_assoc_s.
Qed.

(** X20. The name shown for a path is its last component: it has no
    separator in it, and the path is that name after a prefix that is
    empty or ends with a slash or a backslash. *)
Theorem file_name_is_the_last_component filePath :
  has_separator (file_name filePath) = false /\
  exists dir,
    filePath = dir +:+ file_name filePath /\
    (dir = "" \/ exists d c, dir = d +:+ String c "" /\ is_separator c = true).
Proof.
  destruct (split_chars_last filePath "" eq_refl) as (dir & f & Hl & Hf & E & Hd).
  unfold file_name. rewrite Hl. simpl. split; [done|]. by exists dir.
Qed.

Lemma special_backslash c : special c = false -> c <> "\"%char.
Proof. intros Hs ->. done. Qed.

(** X21. escapeRegExp loses nothing: reading the result with the
    backslashes as escapes gives the text back, so that different search
    texts give different patterns. *)
Theorem escapeRegExp_can_be_read_back s : unescape (escapeRegExp s) = s.
Proof.
  induction s as [|c r IH]; [done|].
  cbn [escapeRegExp]. destruct (special c) eqn:Ec.
  - cbn [unescape]. rewrite bool_decide_eq_true_2 by done. by rewrite IH.
  - cbn [unescape]. rewrite bool_decide_eq_false_2 by (by apply special_backslash).
    by rewrite IH.
Qed.

(** X22. When addPage returns, the status line shows the new page as the
    current page and the number of pages of before as the total (Page
    N+1 of N): updateUI writes the status line before updatePageNumbers
    refreshes totalPages. *)
Theorem addPage_leaves_the_status_line_behind st s :
  consistent st ->
  addPage_status st = Some s ->
  exists st',
    addPage st = Done st' /\
    page_shown s = S (length (pages st)) /\
    total_shown s = length (pages st) /\
    currentPage st' = S (length (pages st)) /\
    totalPages st' = S (length (pages st)).
Proof.
  intros Hc Hs. destruct (consistent_first st Hc) as (first & Hh & Hfirst).
  destruct (addPage_Done st first Hh Hfirst) as (st' & Hadd & _ & Ht & Hcp & _).
  exists st'. split; [done|]. split; [|split; [|done]].
  - revert Hs. unfold addPage_status.
    destruct (pages st) as [|p ps] eqn:E; [done|]. simpl in Hh. injection Hh as ->.
    destruct Hfirst as [html He]. unfold template. rewrite He.
    cbn [fmap option_fmap option_map editor].
    erewrite focus_wired; [|simpl; rewrite E; by apply list_lookup_middle|done].
    intros [= <-]. simpl. lia.
  - revert Hs. unfold addPage_status.
    destruct (pages st) as [|p ps] eqn:E; [done|]. simpl in Hh. injection Hh as ->.
    destruct Hfirst as [html He]. unfold template. rewrite He.
    cbn [fmap option_fmap option_map editor].
    erewrite focus_wired; [|simpl; rewrite E; by apply list_lookup_middle|done].
    intros [= <-]. destruct Hc as (_ & _ & _ & Htot & _). simpl. by rewrite Htot, E.
Qed.

(** ** More scenarios on the flat surface *)

Lemma Flat_three_consistent : consistent Flat.three.
Proof.
  split; [done|]. split; [|split; [|split; [done|simpl; lia]]].
  - constructor; [|done]. split; [by eexists|done].
  - intros [|j] p n Hp Hn; [|done]. injection Hp as <-. by injection Hn as <-.
Qed.

Lemma Flat_three_one_pending : one_pending Flat.three.
Proof. intros id t Ht. done. Qed.

Lemma extractOverflowContent_retained_fits_witness :
  let html := "<p>abc</p><p>abcd</p><p>abcde</p><p>abc</p><br>" in
  exists k, (k < length (@childNodes Flat.surface html))%nat /\
    Forall (fun n => is_element n = true) (take (S k) (@childNodes Flat.surface html)) /\
    (forall j, (j < k)%nat ->
       total_height (take (S j) (@childNodes Flat.surface html)) <= 1000) /\
    1000 < total_height (take (S k) (@childNodes Flat.surface html)) /\
    "<p>abcde</p><p>abc</p><br>" =
      String.concat "" (outerHTML_or_textContent <$> drop k (@childNodes Flat.surface html)) /\
    "<p>abc</p><p>abcd</p>" =
      (let kept :=
         String.concat "" (outerHTML_or_textContent <$> take k (@childNodes Flat.surface html)) in
       if blank kept then placeholder else kept).
Proof.
  intros html.
  apply (@extractOverflowContent_retained_fits Flat.surface html 1000).
  - vm_compute. reflexivity.
  - discriminate.
Defined.

Lemma extractOverflowContent_content_that_fits_witness :
  @extractOverflowContent Flat.surface "<p>abc</p><p>abcd</p>" (Num 1000)
  = ("<p>abc</p><p>abcd</p>", "").
Proof.
  apply (@extractOverflowContent_content_that_fits Flat.surface "<p>abc</p><p>abcd</p>" 1000).
  - change (Forall measured [Flat.p3; Flat.p4]).
    repeat (constructor; [split; [reflexivity|simpl; lia]|]). constructor.
  - vm_compute. discriminate.
Defined.

Lemma bare_text_is_never_moved_witness :
  let st := Flat.one_page "hello<p>abcdeabcdeabc</p>" in
  exists st', @checkPageOverflow Flat.surface 1 0 st = Done st' /\ regions st' = regions st.
Proof.
  intros st.
  apply (@bare_text_is_never_moved Flat.surface 0 0 st "hello<p>abcdeabcdeabc</p>"
           [] "hello" [Element "<p>abcdeabcdeabc</p>" 1300] 1000).
  - vm_compute. reflexivity.
  - vm_compute. reflexivity.
  - vm_compute. reflexivity.
  - constructor.
  - vm_compute. discriminate.
Defined.

Lemma unparsable_metrics_disable_pagination_witness :
  let m := Metrics NaN (Num 0) (Num 0) (Num 0) (Num 0) 0 0 (Num 0) (Num 0) in
  exists st', @handleResize Flat.surface 1 (Some m) Flat.three = Done st' /\
    regions st' = regions Flat.three /\ pageHeight st' = NaN.
Proof.
  intros m. apply (@unparsable_metrics_disable_pagination Flat.surface 0 m Flat.three).
  vm_compute. reflexivity.
Defined.


Lemma edits_stay_marked_witness :
  documentModified
    (@perform_all Flat.surface 3
       [Ev (Elapse 0); Ev AddPageClick; SaveFile (Some (Some "a.html")) Failed;
        ExportPDF Succeeded; Zoom true None; Ev (Keydown "Backspace")]
       (handleEditorInput 0 Flat.three)) = true.
Proof.
  apply (@edits_stay_marked Flat.surface 3).
  - vm_compute. reflexivity.
  - repeat (constructor; [reflexivity|]). constructor.
Defined.

Lemma destroy_cancels_the_pending_check_witness :
  timers (destroy (@perform_all Flat.surface 3
                     [Ev (Typed 0 "<p>abc</p>"); Ev (Mutation 0)] Flat.three)) = ∅.
Proof.
  apply (@destroy_cancels_the_pending_check Flat.surface 3). exact Flat_three_one_pending.
Defined.

Lemma cancelled_open_dialog_discards_the_document_witness :
  let st' := @openFile Flat.surface 1 false (open_reply_of None None) Flat.three in
  regions st' = [Some "undefined"] /\
  currentFilePath st' = None /\
  documentModified st' = false /\
  last (console st') = Some (Toast "Error opening file").
Proof.
  apply (@cancelled_open_dialog_discards_the_document Flat.surface 0 false None Flat.three
           (Page (Some "<p>abc</p><p>abcd</p><p>abcde</p>") (Some 1%nat) true)
           "undefined" []).
  - vm_compute. reflexivity.
  - by eexists.
  - vm_compute. reflexivity.
  - vm_compute. reflexivity.
Defined.




Lemma addPage_leaves_the_status_line_behind_witness :
  exists st',
    addPage Flat.three = Done st' /\
    page_shown (Status "Untitled Document" 2 1) = S (length (pages Flat.three)) /\
    total_shown (Status "Untitled Document" 2 1) = length (pages Flat.three) /\
    currentPage st' = S (length (pages Flat.three)) /\
    totalPages st' = S (length (pages Flat.three)).
Proof.
  apply (addPage_leaves_the_status_line_behind Flat.three (Status "Untitled Document" 2 1)).
  - exact Flat_three_consistent.
  - vm_compute. reflexivity.
Defined.

(** ** Pagination comes to rest *)




Lemma find_split_exists l : forall i c capacity,
  Forall measured l ->
  c <= capacity < c + total_height l ->
  exists k, find_split l i (Num c) (Num capacity) = Some k.
Proof.
  induction l as [|n r IH]; intros i c capacity Hall Hover.
  - unfold total_height in Hover. simpl in Hover. lia.
  - inversion Hall as [|? ? [Hn Hh] Hr]; subst.
    destruct n as [html h|t]; [|done].
    cbn [find_split offsetHeight js_add js_gt].
    destruct (capacity <? c + h) eqn:E; [by eexists|].
    apply Z.ltb_ge in E.
    apply IH; [done|]. rewrite total_height_cons in Hover. simpl in Hover. lia.
Qed.

Section Settling.

Context `{Surface} (faithful : node -> Prop) `{!Faithful faithful}.
Variable capacity : Z.
Hypothesis content_height :
  forall l, Forall faithful l -> scrollHeight (innerHTML l) = total_height l.
Hypothesis positive : forall n, faithful n -> 0 < block_height n.
Hypothesis no_block_higher_than_a_page : forall n, faithful n -> block_height n <= capacity.

Lemma capacity_positive : 0 < capacity.
Proof.
  destruct faithful_placeholder as [h Hh].
  pose proof (positive _ Hh). pose proof (no_block_higher_than_a_page _ Hh). simpl in *. lia.
Qed.

Lemma faithful_measured l : Forall faithful l -> Forall measured l.
Proof.
  intros Hl. eapply Forall_impl; [done|]. intros n Hn. split.
  - pose proof (faithful_block n Hn). by destruct n.
  - pose proof (positive n Hn). lia.
Qed.

(** Where the splitter cuts a region that is found overflowing *)
Lemma split_point l :
  Forall faithful l -> capacity + 5 < total_height l ->
  exists k, (1 <= k < length l)%nat /\
    total_height (take k l) <= capacity /\
    extractOverflowContent (innerHTML l) (Num capacity)
    = (innerHTML (take k l), innerHTML (drop k l)).
Proof.
  intros Hl Hover. pose proof (faithful_measured l Hl) as Hm.
  pose proof capacity_positive as Hcap.
  destruct (find_split_exists l 0 0 capacity Hm) as [k Hk]; [lia|].
  destruct (find_split_sound l 0 0 capacity k Hk) as (j & -> & Hj & _ & Hbefore & Hat).
  simpl in Hk.
  assert (1 <= j)%nat as Hj1.
  { destruct j; [|lia]. destruct l as [|n l']; [simpl in Hj; lia|].
    inversion Hl as [|? ? Hn _]; subst.
    pose proof (no_block_higher_than_a_page n Hn).
    change (take 1 (n :: l')) with [n] in Hat. unfold total_height in Hat. simpl in Hat. lia. }
  exists j. split; [lia|]. split.
  { specialize (Hbefore (j - 1)%nat ltac:(lia)).
    replace (S (j - 1)) with j in Hbefore by lia. lia. }
  unfold extractOverflowContent. rewrite round_trip by done. rewrite Hk.
  rewrite collect_blocks by (apply Forall_drop; by apply (faithful_blocks faithful)).
  assert (blank (innerHTML (take j l)) = false) as ->; [|done].
  destruct l as [|n l']; [simpl in Hj; lia|]. destruct j; [lia|].
  change (take (S j) (n :: l')) with (n :: take j l').
  apply innerHTML_blocks_not_blank. inversion Hl; subst. by apply faithful_block.
Qed.

Lemma fits_retained l k :
  Forall faithful l -> total_height (take k l) <= capacity ->
  fits capacity (Some (innerHTML (take k l))).
Proof.
  intros Hl Hk html [= <-]. rewrite content_height by (by apply Forall_take). lia.
Qed.

Lemma region_nodes_rendered l : Forall faithful l -> nodes_of [Some (innerHTML l)] = l.
Proof. intros Hl. unfold nodes_of. simpl. by rewrite app_nil_r, round_trip. Qed.

Lemma nodes_of_cons r R : nodes_of (r :: R) = region_nodes r ++ nodes_of R.
Proof. done. Qed.

Lemma pageHeight_schedule i ms st : pageHeight (schedule i ms st) = pageHeight st.
Proof. unfold schedule, clearTimeout. by destruct (typingTimer st). Qed.

(** One call of the overflow check, on a document whose blocks all fit a
    page: it returns, the region checked and every region it has
    touched fit, the other regions are as they were, and the content is
    the same. *)
Lemma settle depth : forall i st,
  Forall (region_ok faithful) (regions st) ->
  pageHeight st = Num capacity ->
  (length (nodes_of (drop i (regions st))) < depth)%nat ->
  exists st',
    checkPageOverflow depth i st = Done st' /\
    Forall (region_ok faithful) (regions st') /\
    pageHeight st' = Num capacity /\
    nodes_of (regions st') = nodes_of (regions st) /\
    (forall j r, regions st' !! j = Some r ->
       fits capacity r \/ (j <> i /\ regions st !! j = Some r)).
Proof.
  induction depth as [|depth IH]; intros i st Hwf Hph Hm; [lia|].
  pose proof capacity_positive as Hcap.
  assert (forall st', regions st' = regions st -> pageHeight st' = Num capacity ->
            fits capacity (default None (regions st !! i)) ->
            Forall (region_ok faithful) (regions st') /\
            pageHeight st' = Num capacity /\
            nodes_of (regions st') = nodes_of (regions st) /\
            (forall j r, regions st' !! j = Some r ->
               fits capacity r \/ (j <> i /\ regions st !! j = Some r)))
    as Hsame.
  { intros st' -> Hp Hi. repeat (split; [done|]). intros j r Hr.
    destruct (decide (j = i)) as [->|Hne]; [left; by rewrite Hr in Hi|by right]. }
  destruct (editor_at st i) as [html|] eqn:He.
  2:{ exists st. cbn [checkPageOverflow]. rewrite He. split; [done|].
      apply Hsame; [done..|]. intros html Hr.
      destruct (regions st !! i) as [r|] eqn:E; [|done]. simpl in Hr. subst r.
      apply regions_lookup in E. congruence. }
  apply regions_lookup in He as Hl.
  assert (rendered faithful html) as (l & Hfl & ->).
  { rewrite Forall_lookup in Hwf. by destruct (Hwf _ _ Hl) as (h' & [= <-] & Hr). }
  destruct (bool_decide (scrollHeight (innerHTML l) = 0) && negb (blank (innerText (innerHTML l))))
    eqn:Hretry.
  { eexists. cbn [checkPageOverflow]. rewrite He, Hretry. split; [done|].
    apply Hsame; [apply regions_same_pages; by rewrite pages_schedule
                 |by rewrite pageHeight_schedule|].
    rewrite Hl. simpl. intros html [= <-].
    apply andb_true_iff in Hretry as [Hz%bool_decide_eq_true _]. lia. }
  destruct (decide (capacity + 5 < total_height l)) as [Hover|Hfitsi].
  2:{ eexists. cbn [checkPageOverflow]. rewrite He, Hretry, Hph.
      rewrite content_height by done. cbn [js_add js_gt].
      assert ((capacity + 5 <? total_height l) = false) as -> by (apply Z.ltb_ge; lia).
      cbn [bind]. split; [done|].
      apply Hsame; [apply regions_updateUI|done|].
      rewrite Hl. simpl. intros html [= <-]. rewrite content_height by done. lia. }
  clear Hretry Hsame.
  destruct (split_point l Hfl Hover) as (k & Hk & Htake & Hx).
  set (retained := innerHTML (take k l)) in *.
  set (overflow := innerHTML (drop k l)) in *.
  assert (Forall faithful (take k l)) as Hft by by apply Forall_take.
  assert (Forall faithful (drop k l)) as Hfd by by apply Forall_drop.
  assert (blank overflow = false) as Hbo.
  { unfold overflow. destruct (drop k l) as [|n d] eqn:Ed.
    - apply (f_equal length) in Ed. rewrite length_drop in Ed. simpl in Ed. lia.
    - apply innerHTML_blocks_not_blank. inversion Hfd; subst. by apply faithful_block. }
  assert (scrollHeight (innerHTML l) <> 0) as Hnz by (rewrite content_height by done; lia).
  assert (js_gt (Num (scrollHeight (innerHTML l))) (js_add (pageHeight st) (Num 5)) = true)
    as Hgt.
  { rewrite Hph, content_height by done. cbn [js_add js_gt]. apply Z.ltb_lt. lia. }
  rewrite <- Hph in Hx.
  rewrite (checkPageOverflow_overflowing depth i st _ retained overflow He Hnz Hgt Hx Hbo).
  set (st1 := set_editor i retained (emit detected st)).
  assert (regions st1 = <[i := Some retained]> (regions st)) as HR1.
  { unfold st1. by rewrite (regions_set_editor (emit detected st) i (innerHTML l) retained). }
  assert (Forall (region_ok faithful) (regions st1)) as Hwf1.
  { rewrite HR1. apply Forall_insert; [done|]. exists retained. split; [done|].
    by exists (take k l). }
  assert (forall j r, regions st1 !! j = Some r ->
            fits capacity r \/ (j <> i /\ regions st !! j = Some r)) as Hfit1.
  { intros j r Hr. rewrite HR1 in Hr. destruct (decide (j = i)) as [->|Hne].
    - rewrite list_lookup_insert_eq in Hr by (by apply lookup_lt_Some in Hl).
      injection Hr as <-. left. by apply fits_retained.
    - rewrite list_lookup_insert_ne in Hr by done. by right. }
  assert (length (pages st) = length (regions st)) as Hlen
    by (unfold regions; by rewrite length_fmap).
  assert (forall st3 st',
            checkPageOverflow depth (S i) st3 = Done st' ->
            nodes_of (regions st3) = nodes_of (regions st) ->
            (forall j r, j <> S i -> regions st3 !! j = Some r -> regions st1 !! j = Some r) ->
            Forall (region_ok faithful) (regions st') /\
            pageHeight st' = Num capacity /\
            nodes_of (regions st') = nodes_of (regions st3) /\
            (forall j r, regions st' !! j = Some r ->
               fits capacity r \/ (j <> S i /\ regions st3 !! j = Some r)) ->
            exists st'', (let! st' := checkPageOverflow depth (S i) st3 in Done (updateUI st'))
                         = Done st'' /\
              Forall (region_ok faithful) (regions st'') /\
              pageHeight st'' = Num capacity /\
              nodes_of (regions st'') = nodes_of (regions st) /\
              (forall j r, regions st'' !! j = Some r ->
                 fits capacity r \/ (j <> i /\ regions st !! j = Some r)))
    as Hfinish.
  { intros st3 st' -> Hn3 H31 (Hwf' & Hph' & Hn' & Hf'). exists (updateUI st').
    split; [done|]. rewrite regions_updateUI. split; [done|]. split; [done|].
    split; [congruence|]. intros j r Hr.
    destruct (Hf' j r Hr) as [?|[Hne Hr3]]; [by left|]. eauto. }
  destruct (decide (S i = length (pages st))) as [Hlast|Hlast];
    [rewrite (bool_decide_eq_true_2 _ Hlast)|rewrite (bool_decide_eq_false_2 _ Hlast)].
  - (* the last page: the overflow goes to a new page *)
    assert (S i = length (regions st)) as HlastR by lia.
    destruct (split_last _ _ _ Hl HlastR) as [HR HlenA].
    set (A := take i (regions st)) in *.
    assert (regions st1 = A ++ [Some retained]) as HR1'.
    { rewrite HR1. rewrite HR at 1. rewrite <- HlenA at 1.
      by rewrite insert_app_r_alt, Nat.sub_diag by done. }
    assert (exists first, head (pages st1) = Some first) as [first Hh].
    { destruct (pages st1) as [|p ps] eqn:E; [|by eexists].
      apply (f_equal length) in E. unfold st1 in E. rewrite length_set_editor in E.
      simpl in E. apply editor_at_lt in He. simpl in He. lia. }
    pose proof (first_region_ok faithful st1 first Hwf1 Hh) as Hfirst.
    destruct (overflow_to_new_page_appends (checkPageOverflow depth) overflow st1 first
                Hh Hfirst) as (st2 & new & Hadd & Hl2 & _ & _ & _ & Hph2 & _ & _ & ->).
    assert (length (pages st1) = S i) as Hn1.
    { unfold st1. rewrite length_set_editor. simpl. done. }
    rewrite Hn1 in *.
    destruct (regions_addPage _ _ Hadd) as (first' & Hh' & HR2).
    rewrite Hh in Hh'. injection Hh' as <-.
    destruct Hfirst as [fh Hfh]. rewrite Hfh in HR2. simpl in HR2.
    assert (length (regions st1) = S i) as HlenR1.
    { unfold regions. by rewrite length_fmap. }
    assert (editor_at st2 (S i) = Some "") as He2.
    { apply regions_lookup. rewrite HR2, <- HlenR1. by apply list_lookup_middle. }
    set (st3 := set_editor (S i) overflow st2).
    assert (regions st3 = regions st1 ++ [Some overflow]) as HR3.
    { unfold st3. rewrite (regions_set_editor st2 (S i) "" overflow He2), HR2.
      rewrite <- HlenR1. rewrite insert_app_r_alt, Nat.sub_diag by done. done. }
    destruct (IH (S i) st3) as (st' & Hrun & Hst').
    + rewrite HR3. apply Forall_app. split; [done|].
      constructor; [|done]. exists overflow. split; [done|]. by exists (drop k l).
    + unfold st3. simpl. rewrite Hph2. done.
    + rewrite HR3, <- HlenR1, drop_app_length. unfold overflow.
      rewrite region_nodes_rendered by done.
      rewrite HR, drop_app_length' in Hm by done.
      rewrite region_nodes_rendered in Hm by done.
      rewrite length_drop. lia.
    + eapply Hfinish; [done| | |done].
      * rewrite HR3, HR1', HR. rewrite !nodes_of_app.
        rewrite <- (assoc_L (++)). f_equal.
        unfold retained, overflow. rewrite !region_nodes_rendered by done.
        apply take_drop.
      * intros j r Hne Hr. rewrite HR3 in Hr.
        apply lookup_app_Some in Hr as [Hr|[Hge Hr]]; [done|].
        rewrite HlenR1 in *. destruct (j - S i)%nat eqn:Ej; [lia|done].
  - (* the overflow goes before the content of the next page *)
    assert (S i < length (regions st))%nat as Hnext.
    { apply lookup_lt_Some in Hl. lia. }
    destruct (lookup_lt_is_Some_2 _ _ Hnext) as [rn Hrn].
    assert (exists ln, Forall faithful ln /\ rn = Some (innerHTML ln)) as (ln & Hfn & ->).
    { rewrite Forall_lookup in Hwf. destruct (Hwf _ _ Hrn) as (h' & -> & ln & ? & ->). eauto. }
    apply regions_lookup in Hrn as Hen.
    replace (i + 1)%nat with (S i) by lia. rewrite Hen.
    set (st2 := set_editor (S i) (overflow +:+ innerHTML ln) st1).
    assert (editor_at st1 (S i) = Some (innerHTML ln)) as Hen1.
    { unfold st1. by rewrite editor_at_set_editor_ne by lia. }
    assert (regions st2 = <[S i := Some (overflow +:+ innerHTML ln)]> (regions st1)) as HR2.
    { unfold st2. by rewrite (regions_set_editor st1 (S i) (innerHTML ln)). }
    assert (overflow +:+ innerHTML ln = innerHTML (drop k l ++ ln)) as Hov
      by (by rewrite innerHTML_app).
    destruct (split_two _ _ _ _ Hl Hrn) as [HR HlenA].
    set (A := take i (regions st)) in *. set (B := drop (S (S i)) (regions st)) in *.
    assert (regions st2 = A ++ Some retained :: Some (overflow +:+ innerHTML ln) :: B) as HR2'.
    { rewrite HR2, HR1. rewrite HR at 1. clearbody A B. subst i. apply insert_two_app. }
    destruct (IH (S i) st2) as (st' & Hrun & Hst').
    + rewrite HR2. apply Forall_insert; [done|]. eexists. split; [done|].
      exists (drop k l ++ ln). split; [by apply Forall_app|done].
    + done.
    + rewrite HR2'. rewrite HR in Hm.
      rewrite (drop_app_length' A) in Hm by done.
      replace (A ++ Some retained :: Some (overflow +:+ innerHTML ln) :: B)
        with ((A ++ [Some retained]) ++ Some (overflow +:+ innerHTML ln) :: B)
        by (by rewrite <- (assoc_L (++))).
      rewrite drop_app_length' by (rewrite length_app; simpl; lia).
      rewrite !nodes_of_cons in *. simpl in *.
      rewrite Hov. rewrite !round_trip in * by (by try apply Forall_app).
      rewrite !length_app in *. rewrite length_drop. lia.
    + eapply Hfinish; [done| | |done].
      * rewrite HR2'. rewrite HR. rewrite !nodes_of_app. f_equal.
        rewrite !nodes_of_cons. simpl.
        rewrite Hov. unfold retained. rewrite !round_trip by (by try apply Forall_app).
        rewrite !(assoc_L (++)). by rewrite take_drop.
      * intros j r Hne Hr. by rewrite HR2, list_lookup_insert_ne in Hr.
Qed.

Lemma settle_all depth m : forall i st,
  Forall (region_ok faithful) (regions st) ->
  pageHeight st = Num capacity ->
  (length (nodes_of (regions st)) < depth)%nat ->
  (forall j r, regions st !! j = Some r -> (j < i \/ i + m <= j)%nat -> fits capacity r) ->
  exists st',
    foldl (fun r i => let! st' := r in checkPageOverflow depth i st') (Done st) (seq i m)
    = Done st' /\
    Forall (region_ok faithful) (regions st') /\
    pageHeight st' = Num capacity /\
    nodes_of (regions st') = nodes_of (regions st) /\
    Forall (fits capacity) (regions st').
Proof.
  induction m as [|m IH]; intros i st Hwf Hph Hdepth Hinv.
  - exists st. repeat (split; [done|]). apply Forall_lookup. intros j r Hr.
    apply (Hinv j r Hr). lia.
  - destruct (settle depth i st Hwf Hph) as (st1 & Hrun & Hwf1 & Hph1 & Hn1 & Hf1).
    { rewrite <- (take_drop i (regions st)), nodes_of_app, length_app in Hdepth. lia. }
    destruct (IH (S i) st1 Hwf1 Hph1) as (st' & Hrun' & Hwf' & Hph' & Hn' & Hf').
    + by rewrite Hn1.
    + intros j r Hr Hj. destruct (Hf1 j r Hr) as [?|[Hne Hr0]]; [done|].
      apply (Hinv j r Hr0). lia.
    + exists st'. cbn [seq foldl bind]. rewrite Hrun. split; [done|].
      split; [done|]. split; [done|]. split; [congruence|done].
Qed.

(** X23. On a surface where the content height of a region is the sum of
    the heights of its blocks, and no block is higher than a page: when
    the other regions fit, a call of checkPageOverflow with room on the
    stack for one call per block returns, after it every region fits its
    page, and the blocks of the document are the same, in the same
    order, with no placeholder put in. *)
Theorem pagination_settles depth i st :
  well_formed faithful st ->
  pageHeight st = Num capacity ->
  (forall j r, j <> i -> regions st !! j = Some r -> fits capacity r) ->
  (length (document_nodes st) < depth)%nat ->
  exists st',
    checkPageOverflow depth i st = Done st' /\
    well_formed faithful st' /\
    Forall (fits capacity) (regions st') /\
    document_nodes st' = document_nodes st.
Proof.
  intros Hwf%well_formed_regions Hph Hothers Hdepth.
  destruct (settle depth i st Hwf Hph) as (st' & Hrun & Hwf' & _ & Hn & Hfits).
  - unfold document_nodes in Hdepth.
    rewrite <- (take_drop i (regions st)), nodes_of_app, length_app in Hdepth. lia.
  - exists st'. split; [done|]. split; [by apply well_formed_regions|]. split; [|done].
    apply Forall_lookup. intros j r Hr.
    destruct (Hfits j r Hr) as [?|[Hne Hr0]]; [done|by eapply Hothers].
Qed.

(** X24. On such a surface, checkAllPagesForOverflow returns whatever the
    regions hold, and after it every region fits its page; the blocks
    of the document are the same, in the same order. *)
Theorem every_page_fits_after_the_check_of_all_pages depth st :
  well_formed faithful st ->
  pageHeight st = Num capacity ->
  (length (document_nodes st) < depth)%nat ->
  exists st',
    checkAllPagesForOverflow depth st = Done st' /\
    well_formed faithful st' /\
    Forall (fits capacity) (regions st') /\
    document_nodes st' = document_nodes st.
Proof.
  intros Hwf%well_formed_regions Hph Hdepth.
  destruct (settle_all depth (length (pages st)) 0 st Hwf Hph Hdepth)
    as (st' & Hrun & Hwf' & _ & Hn & Hfits).
  - intros j r Hr [Hj|Hj]; [lia|].
    apply lookup_lt_Some in Hr. unfold regions in Hr. rewrite length_fmap in Hr. lia.
  - exists st'. split; [done|]. split; [by apply well_formed_regions|done].
Qed.




End Settling.

(** ** The flat surface lays blocks out one under the other *)

Lemma Flat_content_height l :
  Forall Flat.known l -> @scrollHeight Flat.surface (innerHTML l) = total_height l.
Proof.
  intros Hl. change (total_height (Flat.parse (innerHTML l)) = total_height l).
  by rewrite Flat_parse_known.
Qed.

Lemma Flat_heights n : Flat.known n -> 0 < block_height n <= 1000.
Proof.
  intros Hn. unfold Flat.known in Hn.
  repeat (apply elem_of_cons in Hn as [->|Hn]); [simpl; lia..|by apply elem_of_nil in Hn].
Qed.

Lemma pagination_settles_witness :
  exists st',
    @checkPageOverflow Flat.surface 4 0 Flat.three = Done st' /\
    well_formed Flat.known st' /\
    Forall (@fits Flat.surface 1000) (regions st') /\
    @document_nodes Flat.surface st' = @document_nodes Flat.surface Flat.three.
Proof.
  apply (@pagination_settles Flat.surface Flat.known Flat_faithful 1000 Flat_content_height
           (fun n Hn => proj1 (Flat_heights n Hn)) (fun n Hn => proj2 (Flat_heights n Hn))
           4 0 Flat.three).
  - exact Flat_three_well_formed.
  - reflexivity.
  - intros [|j] r Hj Hr; [done|]. vm_compute in Hr. discriminate.
  - vm_compute. lia.
Defined.

Lemma every_page_fits_after_the_check_of_all_pages_witness :
  let st := Flat.document [Page (Some "<p>abc</p><p>abcd</p><p>abcde</p>") (Some 1%nat) true;
                           Page (Some "<p>abcde</p><p>abcde</p><p>abc</p>") (Some 2%nat) true] in
  exists st',
    @checkAllPagesForOverflow Flat.surface 7 st = Done st' /\
    well_formed Flat.known st' /\
    Forall (@fits Flat.surface 1000) (regions st') /\
    @document_nodes Flat.surface st' = @document_nodes Flat.surface st.
Proof.
  intros st.
  apply (@every_page_fits_after_the_check_of_all_pages Flat.surface Flat.known Flat_faithful
           1000 Flat_content_height
           (fun n Hn => proj1 (Flat_heights n Hn)) (fun n Hn => proj2 (Flat_heights n Hn))
           7 st).
  - split.
    + intros p Hp. repeat (apply elem_of_cons in Hp as [->|Hp]); [by eexists..|].
      by apply elem_of_nil in Hp.
    + intros [|[|i]] html He; [..|done]; injection He as <-.
      * exists [Flat.p3; Flat.p4; Flat.p5]. split; [|done].
        unfold Flat.known. repeat (constructor; [set_solver|]). constructor.
      * exists [Flat.p5; Flat.p5; Flat.p3]. split; [|done].
        unfold Flat.known. repeat (constructor; [set_solver|]). constructor.
  - reflexivity.
  - vm_compute. lia.
Defined.



(** ** Regions that count as empty *)




Lemma match_br_head c r : c <> "<"%char -> match_br (String c r) = None.
Proof.
  intros Hc. unfold match_br. destruct r as [|c2 [|c3 r]]; try done.
  by rewrite (bool_decide_eq_false_2 _ Hc).
Qed.

Lemma match_nbsp_head c r : c <> "&"%char -> match_nbsp (String c r) = None.
Proof.
  intros Hc. unfold match_nbsp. destruct r as [|c2 [|c3 [|c4 [|c5 [|c6 r]]]]]; try done.
  by rewrite (bool_decide_eq_false_2 _ Hc).
Qed.

Lemma is_space_not_lt c : is_space c = true -> c <> "<"%char.
Proof. by intros Hc ->. Qed.

Lemma is_space_not_amp c : is_space c = true -> c <> "&"%char.
Proof. by intros Hc ->. Qed.

Lemma trimStart_split s : exists w, s = w +:+ trimStart s /\ all_space w = true.
Proof.
  induction s as [|c r (w & E & Hw)]; [by exists ""|].
  simpl. destruct (is_space c) eqn:Ec.
  - exists (String c w). simpl. rewrite Ec, Hw. split; [by f_equal|done].
  - by exists "".
Qed.

Lemma trimStart_app_spaces w s : all_space w = true -> trimStart (w +:+ s) = trimStart s.
Proof.
  induction w as [|c w IH]; [done|]. simpl.
  destruct (is_space c); [apply IH|done].
Qed.

Lemma length_app_s (a b : string) :
  String.length (a +:+ b) = (String.length a + String.length b)%nat.
Proof. induction a as [|c a IH]; simpl; [done|]. by rewrite IH. Qed.

(** The text a match of a break takes: it starts with [<], ends with
    [>], and is matched whatever follows it. *)
Lemma match_br_decompose s r :
  match_br s = Some r ->
  exists p, s = p +:+ r /\
    ends_in_space true p = false /\
    (exists t, p = String "<" t) /\
    (forall r', match_br (p +:+ r') = Some r').
Proof.
  unfold match_br. destruct s as [|c1 [|c2 [|c3 rest]]]; try done.
  destruct (bool_decide (c1 = "<"%char)) eqn:E1; [|done].
  apply bool_decide_eq_true in E1 as ->.
  destruct (bool_decide (lower c2 = "b"%char)) eqn:E2; [|done].
  destruct (bool_decide (lower c3 = "r"%char)) eqn:E3; [|done].
  cbn [andb].
  destruct (trimStart_split rest) as (w & Erest & Hw).
  destruct (trimStart rest) as [|c4 r4] eqn:Et; [done|].
  assert (forall q, ends_in_space true (String "<" (String c2 (String c3 (w +:+ q))))
                    = ends_in_space (is_space c3) (w +:+ q)) as Hends by done.
  assert (forall b q, q <> "" -> ends_in_space b (w +:+ q) = ends_in_space true q) as Hw'.
  { clear -Hw. induction w as [|c w IH]; intros b q Hq; simpl in *.
    - by destruct q.
    - apply andb_true_iff in Hw as [Hc Hw]. rewrite Hc. by apply IH. }
  destruct (bool_decide (c4 = ">"%char)) eqn:E4.
  - apply bool_decide_eq_true in E4 as ->. intros [= <-].
    exists (String "<" (String c2 (String c3 (w +:+ ">")))).
    split; [|split; [|split]].
    + simpl. rewrite app_assoc_s. simpl. by rewrite <- Erest.
    + rewrite Hends. by rewrite Hw'.
    + by eexists.
    + intros r'. simpl. rewrite E2, E3. cbn [andb bool_decide decide_rel].
      rewrite app_assoc_s, trimStart_app_spaces by done. done.
  - destruct (bool_decide (c4 = "/"%char)) eqn:E5; [|done].
    apply bool_decide_eq_true in E5 as ->.
    destruct r4 as [|c5 r5]; [done|].
    destruct (bool_decide (c5 = ">"%char)) eqn:E6; [|done].
    apply bool_decide_eq_true in E6 as ->. intros [= <-].
    exists (String "<" (String c2 (String c3 (w +:+ "/>")))).
    split; [|split; [|split]].
    + simpl. rewrite app_assoc_s. simpl. by rewrite <- Erest.
    + rewrite Hends. by rewrite Hw'.
    + by eexists.
    + intros r'. simpl. rewrite E2, E3. cbn [andb bool_decide decide_rel].
      rewrite app_assoc_s, trimStart_app_spaces by done. done.
Qed.

Lemma match_nbsp_decompose s r :
  match_nbsp s = Some r ->
  exists c2 c3 c4 c5,
    s = String "&" (String c2 (String c3 (String c4 (String c5 (String ";" r))))) /\
    c2 <> "<"%char /\ c3 <> "<"%char /\ c4 <> "<"%char /\ c5 <> "<"%char /\
    (forall r', match_nbsp (String "&" (String c2 (String c3 (String c4 (String c5 (String ";" r'))))))
                = Some r').
Proof.
  unfold match_nbsp. destruct s as [|c1 [|c2 [|c3 [|c4 [|c5 [|c6 rest]]]]]]; try done.
  destruct (bool_decide (c1 = "&"%char)) eqn:E1; [|done].
  apply bool_decide_eq_true in E1 as ->.
  destruct (bool_decide (lower c2 = "n"%char)) eqn:E2; [|done].
  destruct (bool_decide (lower c3 = "b"%char)) eqn:E3; [|done].
  destruct (bool_decide (lower c4 = "s"%char)) eqn:E4; [|done].
  destruct (bool_decide (lower c5 = "p"%char)) eqn:E5; [|done].
  destruct (bool_decide (c6 = ";"%char)) eqn:E6; [|done].
  apply bool_decide_eq_true in E6 as ->. intros [= <-].
  exists c2, c3, c4, c5. split; [done|].
  apply bool_decide_eq_true in E2 as E2', E3 as E3', E4 as E4', E5 as E5'.
  repeat (split; [by intros ->|]).
  intros r'. simpl. by rewrite E2, E3, E4, E5.
Qed.

Lemma trimEnd_prefix p s :
  ends_in_space true p = false -> trimEnd (p +:+ s) = p +:+ trimEnd s.
Proof.
  induction p as [|c p IH]; [done|]. intros Hp.
  change (String c p +:+ s) with (String c (p +:+ s)). cbn [trimEnd].
  destruct p as [|c' p'].
  - simpl in *. rewrite Hp. by destruct (trimEnd s).
  - rewrite IH by done. done.
Qed.

Lemma filler_trimStart s : filler s -> filler (trimStart s).
Proof.
  induction 1 as [|c s Hc _ IH|s' s Hm Hs _|s' s Hm Hs _].
  - constructor.
  - simpl. by rewrite Hc.
  - destruct (match_br_decompose _ _ Hm) as (p & -> & _ & [t ->] & _).
    simpl. by eapply filler_br.
  - destruct (match_nbsp_decompose _ _ Hm) as (c2 & c3 & c4 & c5 & -> & _).
    simpl. by eapply filler_nbsp.
Qed.

Lemma filler_trimEnd s : filler s -> filler (trimEnd s).
Proof.
  induction 1 as [|c s Hc _ IH|s' s Hm Hs IH|s' s Hm Hs IH].
  - constructor.
  - cbn [trimEnd]. destruct (trimEnd s) eqn:E; rewrite ?Hc; [constructor|].
    by constructor.
  - destruct (match_br_decompose _ _ Hm) as (p & -> & Hp & _ & Hany).
    rewrite trimEnd_prefix by done. eapply filler_br; [apply Hany|done].
  - destruct (match_nbsp_decompose _ _ Hm) as (c2 & c3 & c4 & c5 & -> & _ & _ & _ & _ & Hany).
    change (String "&" (String c2 (String c3 (String c4 (String c5 (String ";" s))))))
      with (String "&" (String c2 (String c3 (String c4 (String c5 ";")))) +:+ s).
    rewrite trimEnd_prefix by done. eapply filler_nbsp; [apply Hany|done].
Qed.

(** Removing the breaks from such markup leaves entities and white space. *)
Lemma remove_breaks k : forall s n,
  (String.length s <= k)%nat -> (String.length s < n)%nat ->
  filler s -> spaces (remove_all match_br n s).
Proof.
  induction k as [|k IH]; intros s n Hk Hn Hs.
  - destruct s; [|simpl in Hk; lia]. destruct n; [lia|]. simpl. constructor.
  - destruct n as [|n]; [lia|].
    inversion Hs as [|c s0 Hc Hs0|s' s0 Hm Hs0|s' s0 Hm Hs0]; subst.
    + simpl. constructor.
    + cbn [remove_all]. rewrite match_br_head by (by apply is_space_not_lt).
      constructor; [done|]. apply IH; simpl in *; [lia..|done].
    + cbn [remove_all]. rewrite Hm.
      destruct (match_br_decompose _ _ Hm) as (p & -> & _ & [t ->] & _).
      rewrite length_app_s in *. simpl in *. apply IH; [lia..|done].
    + destruct (match_nbsp_decompose _ _ Hm)
        as (c2 & c3 & c4 & c5 & -> & H2 & H3 & H4 & H5 & Hany).
      simpl in Hk, Hn.
      do 5 (destruct n as [|n]; [lia|]).
      cbn [remove_all].
      rewrite (match_br_head "&") by done. cbn [remove_all].
      rewrite (match_br_head c2) by done. cbn [remove_all].
      rewrite (match_br_head c3) by done. cbn [remove_all].
      rewrite (match_br_head c4) by done. cbn [remove_all].
      rewrite (match_br_head c5) by done. cbn [remove_all].
      rewrite (match_br_head ";") by done.
      eapply spaces_nbsp; [apply Hany|]. apply IH; [lia..|done].
Qed.

Lemma remove_entities n : forall s,
  (String.length s < n)%nat -> spaces s -> all_space (remove_all match_nbsp n s) = true.
Proof.
  induction n as [|n IH]; intros s Hn Hs; [lia|].
  inversion Hs as [|c s0 Hc Hs0|s' s0 Hm Hs0]; subst.
  - done.
  - cbn [remove_all]. rewrite match_nbsp_head by (by apply is_space_not_amp).
    simpl. rewrite Hc. apply IH; [simpl in Hn; lia|done].
  - cbn [remove_all]. rewrite Hm.
    destruct (match_nbsp_decompose _ _ Hm) as (c2 & c3 & c4 & c5 & -> & _).
    apply IH; [simpl in Hn; lia|done].
Qed.

Lemma htmlContent_filler html : filler html -> htmlContent html = "".
Proof.
  intros Hf. unfold htmlContent.
  assert (filler (trim html)) as Ht by (by apply filler_trimEnd, filler_trimStart).
  set (s1 := trim html) in *.
  pose proof (remove_breaks (String.length s1) s1 (S (String.length s1))
                ltac:(lia) ltac:(lia) Ht) as H2.
  set (s2 := remove_all match_br _ s1) in *.
  pose proof (remove_entities (S (String.length s2)) s2 ltac:(lia) H2) as H3.
  unfold trim. by rewrite trimStart_all_space.
Qed.

(** X26. A region that holds nothing but breaks (in any case, with or
    without a slash or spaces), non-breaking space entities and white
    space counts as empty: the emptiness test of the Backspace handler
    gives the empty string, and Backspace in such a region of a page
    after the first removes that page and renumbers the others. *)
Theorem markup_of_breaks_counts_as_empty html :
  filler html ->
  htmlContent html = "" /\
  forall st a prev,
    activeElement st = Some a -> editor_at st a = Some html ->
    (0 < a)%nat -> editor_at st (a - 1) = Some prev ->
    pages (onKeydown "Backspace" st) = imap renumber (delete a (pages st)) /\
    activeElement (onKeydown "Backspace" st) = Some (a - 1)%nat.
Proof.
  intros Hf. pose proof (htmlContent_filler html Hf) as He. split; [done|].
  intros st a prev Ha Hed Hpos Hprev.
  by destruct (onKeydown_removes st a html prev Ha Hed He Hpos Hprev) as (? & ? & _).
Qed.

Lemma markup_of_breaks_counts_as_empty_witness :
  htmlContent "<br> <BR/>&nbsp;<br />" = "" /\
  forall st a prev,
    activeElement st = Some a -> editor_at st a = Some "<br> <BR/>&nbsp;<br />" ->
    (0 < a)%nat -> editor_at st (a - 1) = Some prev ->
    pages (onKeydown "Backspace" st) = imap renumber (delete a (pages st)) /\
    activeElement (onKeydown "Backspace" st) = Some (a - 1)%nat.
Proof.
  apply (markup_of_breaks_counts_as_empty "<br> <BR/>&nbsp;<br />").
  eapply filler_br; [vm_compute; reflexivity|].
  apply filler_space; [reflexivity|].
  eapply filler_br; [vm_compute; reflexivity|].
  eapply filler_nbsp; [vm_compute; reflexivity|].
  eapply filler_br; [vm_compute; reflexivity|].
  apply filler_nil.
Defined.

(** ** The check works forward *)


Section Locality.

Context `{Surface}.

Lemma earlier_pages_kept_refl i st : earlier_pages_kept i st st.
Proof. by split. Qed.

Lemma earlier_pages_kept_trans i i' st1 st2 st3 :
  (i <= i')%nat ->
  earlier_pages_kept i st1 st2 -> earlier_pages_kept i' st2 st3 ->
  earlier_pages_kept i st1 st3.
Proof.
  intros Hi [Hl1 He1] [Hl2 He2]. split; [lia|].
  intros j Hj. rewrite He2 by lia. by apply He1.
Qed.

Lemma earlier_pages_kept_updateUI i st st' :
  earlier_pages_kept i st st' -> earlier_pages_kept i st (updateUI st').
Proof.
  intros [Hl He]. split.
  - by rewrite pages_updateUI, length_imap.
  - intros j Hj. rewrite editor_at_updateUI. by apply He.
Qed.

Lemma earlier_pages_kept_set_editor i k html st :
  (i <= k)%nat -> earlier_pages_kept i st (set_editor k html st).
Proof.
  intros Hk. split; [by rewrite length_set_editor|].
  intros j Hj. apply editor_at_set_editor_ne. lia.
Qed.

Lemma earlier_pages_kept_new_page i overflow st st2 :
  (i <= length (pages st))%nat ->
  addPage st = Done st2 ->
  earlier_pages_kept i st (set_editor (length (pages st2) - 1) overflow st2).
Proof.
  intros Hi Hadd. pose proof (length_addPage _ _ Hadd) as Hl.
  split; [rewrite length_set_editor; lia|].
  intros j Hj. rewrite editor_at_set_editor_ne by lia.
  apply (editor_at_addPage _ _ Hadd). lia.
Qed.

Lemma overflow_to_new_page_keeps depth i overflow st :
  (forall k st, (i <= k)%nat ->
     earlier_pages_kept i st (state_of (checkPageOverflow depth k st))) ->
  (i <= length (pages st))%nat ->
  earlier_pages_kept i st
    (state_of (overflow_to_new_page (checkPageOverflow depth) overflow st)).
Proof.
  intros IH Hi. unfold overflow_to_new_page.
  destruct (addPage st) as [st2|e st2] eqn:Hadd; cbn [bind].
  - pose proof (length_addPage _ _ Hadd) as Hl.
    destruct (editor_at st2 _) eqn:He.
    + eapply (earlier_pages_kept_trans i i);
        [done|by apply earlier_pages_kept_new_page|apply IH; lia].
    + simpl. split; [lia|]. intros j Hj. apply (editor_at_addPage _ _ Hadd). lia.
  - simpl. rewrite (addPage_Thrown _ _ _ Hadd). apply earlier_pages_kept_refl.
Qed.

Lemma checkPageOverflow_keeps depth : forall i k st,
  (i <= k)%nat ->
  earlier_pages_kept i st (state_of (checkPageOverflow depth k st)).
Proof.
  induction depth as [|depth IH]; intros i k st Hik; [apply earlier_pages_kept_refl|].
  cbn [checkPageOverflow].
  destruct (editor_at st k) as [html|] eqn:He; [|apply earlier_pages_kept_refl].
  pose proof (editor_at_lt _ _ _ He) as Hlt.
  destruct (_ && _).
  { simpl. split; [by rewrite pages_schedule|].
    intros j Hj. by rewrite editor_at_schedule. }
  destruct (js_gt _ _); [|by apply earlier_pages_kept_updateUI, earlier_pages_kept_refl].
  destruct (extractOverflowContent html _) as [retained overflow].
  set (st1 := set_editor k retained (emit detected st)).
  assert (earlier_pages_kept i st st1) as H1
    by (by apply (earlier_pages_kept_set_editor i k retained (emit detected st))).
  assert (length (pages st1) = length (pages st)) as Hl1
    by (unfold st1; by rewrite length_set_editor).
  assert (forall r, earlier_pages_kept i st1 (state_of r) ->
            earlier_pages_kept i st (state_of (let! st' := r in Done (updateUI st')))) as Hfin.
  { intros [st'|e st'] Hr; cbn [bind state_of] in *.
    - apply earlier_pages_kept_updateUI. by eapply (earlier_pages_kept_trans i i).
    - by eapply (earlier_pages_kept_trans i i). }
  destruct (negb (blank overflow)); [|by apply earlier_pages_kept_updateUI].
  apply Hfin.
  assert (earlier_pages_kept i st1
            (state_of (overflow_to_new_page (checkPageOverflow depth) overflow st1))) as Hnew.
  { apply overflow_to_new_page_keeps; [|lia]. intros k' st' Hk'. by apply IH. }
  destruct (bool_decide _); [done|].
  destruct (editor_at st1 (k + 1)) as [next|] eqn:Hn; [|done].
  eapply (earlier_pages_kept_trans i i);
    [done|apply (earlier_pages_kept_set_editor i (k + 1)); lia|apply IH; lia].
Qed.

(** X27. Whatever the regions hold and whether the call returns or
    exhausts the stack, checkPageOverflow never removes a page and never
    changes a region before the one it is called on: content only moves
    forward. *)
Theorem the_check_never_reaches_back depth i st :
  let st' := state_of (checkPageOverflow depth i st) in
  (length (pages st) <= length (pages st'))%nat /\
  (forall j, (j < i)%nat -> editor_at st' j = editor_at st j).
Proof. intros st'. by apply checkPageOverflow_keeps. Qed.

End Locality.
